(** * Daily Glow Tracker: the item store of [src/App.jsx] and its snapshot codec

    The development embeds the state containers of [App.jsx]:

    - [TrackerPage]: the handlers [addItem], [deleteItem], [toggleComplete],
      [startEditing], [saveEdit], [cancelEdit] and [addDefaultItems] of the
      generic tracker component, as functions on the component state;
    - [App]: the six [useLocalStorage] stores with [handleExport] and
      [handleImport].

    The host (clock, random generator, JSON, storage) is not part of the
    repository: what a handler reads from the clock and the random generator
    is an argument of the handler; [JSON.parse], [JSON.stringify] and the
    storage quota are the fields of a [Platform], over which the handlers of
    [App] are parametrised.  The tracker component is modelled on items of
    the shape its own handlers build; the stores of [App] hold whatever
    [JSON.parse] returned. *)

From Stdlib Require Import QArith Qcanon Ascii String.
From stdpp Require Import numbers strings gmap list.

Set Warnings "-register-all".
Close Scope Q_scope.
Close Scope Qc_scope.
Local Open Scope string_scope.
Local Open Scope list_scope.

(** ** JavaScript numbers

    A JavaScript number is an IEEE 754 double.  The finite doubles are
    rationals, and the handlers only compare numbers ([===]), test them for
    truthiness and add a clock reading to a random draw, so a number is a
    canonical rational [Qc]; [NaN] and the infinities, which neither JSON nor
    the handlers produce, are left out.  [===] on numbers is then Leibniz
    equality, decided by [decide]. *)

Definition num : Type := Qc.

(** Nearest integer to [n / d] for [0 < d], ties to even. *)
Definition round_half_even (n d : Z) : Z :=
  let q := (n / d)%Z in
  let r := (n mod d)%Z in
  match (2 * r ?= d)%Z with
  | Lt => q
  | Gt => (q + 1)%Z
  | Eq => if Z.even q then q else (q + 1)%Z
  end.

(** The exponent [e] with [2^e <= n / d < 2^(e+1)], for [0 < n] and [0 < d]. *)
Definition binade (n d : Z) : Z :=
  let e := (Z.log2 n - Z.log2 d)%Z in
  if (d * 2 ^ Z.max 0 e <=? n * 2 ^ Z.max 0 (- e))%Z then e else (e - 1)%Z.

(** Rounding of a rational to the nearest double (53 significant bits,
    ties to even); overflow and subnormals, far from the range of time
    stamps, are not modelled. *)
Definition to_double (q : Q) : Q :=
  match Qnum q with
  | Z0 => Qmake 0 1
  | _ =>
      let n := Z.abs (Qnum q) in
      let d := Zpos (Qden q) in
      let s := (52 - binade n d)%Z in
      let m := round_half_even (n * 2 ^ Z.max 0 s) (d * 2 ^ Z.max 0 (- s)) in
      let m := (Z.sgn (Qnum q) * m)%Z in
      match s with
      | Zpos p => Qmake m (2 ^ p)
      | Z0 => inject_Z m
      | Zneg p => inject_Z (m * 2 ^ Zpos p)
      end
  end.

(** The number nearest to a rational: what a numeric literal and the
    result of an arithmetic operation denote. *)
Definition number (q : Q) : num := Q2Qc (to_double q).

(** The [+] of two numbers. *)
Definition num_add (x y : num) : num := number (Qplus x y).

(** ** JavaScript strings

    A string is a [string] of code units below 256.  [trim] removes the
    white space and line terminators of that range from both ends. *)

Definition is_white_space (c : ascii) : bool :=
  match N_of_ascii c with
  | 9%N | 10%N | 11%N | 12%N | 13%N | 32%N | 160%N => true
  | _ => false
  end.

Fixpoint trimStart (s : string) : string :=
  match s with
  | EmptyString => EmptyString
  | String c s' => if is_white_space c then trimStart s' else s
  end.

Definition trimEnd (s : string) : string :=
  String.rev (trimStart (String.rev s)).

Definition trim (s : string) : string := trimEnd (trimStart s).

(** ** Truthiness ([ToBoolean]) of the values the handlers test *)

Definition truthy_string (s : string) : bool :=
  match s with EmptyString => false | String _ _ => true end.

(** [!!x] for [x] the result of reading a key of a completion mapping:
    [undefined] when the key is absent, else the stored boolean. *)
Definition truthy_flag (x : option bool) : bool :=
  match x with Some b => b | None => false end.

(** ** Tracked items and the tracker component *)

Module Tracker.

(** [{ id, name, completed, createdAt }], the object [addItem] and
    [addDefaultItems] build. *)
Record Item : Type := mkItem {
  id : num;
  name : string;
  completed : gmap string bool;
  createdAt : string
}.

(** What one evaluation of the item constructor reads from the host:
    [Date.now()], [Math.random()] and [new Date().toISOString()]. *)
Record Host : Type := mkHost {
  Date_now : num;
  Math_random : num;
  toISOString : string
}.

(** Component state: the [items] prop together with the three [useState]
    cells.  [editingItem] is [None] for [null]. *)
Record TrackerPage : Type := mkTrackerPage {
  items : list Item;
  newItem : string;
  editingItem : option num;
  editValue : string
}.

Definition setItems (l : list Item) (st : TrackerPage) : TrackerPage :=
  mkTrackerPage l (newItem st) (editingItem st) (editValue st).

Definition setNewItem (s : string) (st : TrackerPage) : TrackerPage :=
  mkTrackerPage (items st) s (editingItem st) (editValue st).

Definition setEditingItem (e : option num) (st : TrackerPage) : TrackerPage :=
  mkTrackerPage (items st) (newItem st) e (editValue st).

Definition setEditValue (s : string) (st : TrackerPage) : TrackerPage :=
  mkTrackerPage (items st) (newItem st) (editingItem st) s.

Definition addItem (h : Host) (st : TrackerPage) : TrackerPage :=
  if truthy_string (trim (newItem st)) then
    let item := {| id := Date_now h;
                   name := trim (newItem st);
                   completed := ∅;
                   createdAt := toISOString h |} in
    setNewItem "" (setItems (items st ++ [item]) st)
  else st.

Definition deleteItem (id0 : num) (st : TrackerPage) : TrackerPage :=
  setItems (filter (λ item, id item ≠ id0) (items st)) st.

(** The callback of [items.map] in [toggleComplete].  [today] is
    [new Date().toDateString()], computed when the component renders. *)
Definition toggle_callback (today : string) (id0 : num) (item : Item) : Item :=
  if decide (id item = id0) then
    let newCompleted := completed item in
    let newCompleted :=
      <[today := negb (truthy_flag (newCompleted !! today))]> newCompleted in
    {| id := id item; name := name item;
       completed := newCompleted; createdAt := createdAt item |}
  else item.

Definition toggleComplete (today : string) (id0 : num) (st : TrackerPage)
  : TrackerPage :=
  setItems (toggle_callback today id0 <$> items st) st.

Definition startEditing (item : Item) (st : TrackerPage) : TrackerPage :=
  setEditValue (name item) (setEditingItem (Some (id item)) st).

(** The callback of [items.map] in [saveEdit]. *)
Definition rename_callback (editing : option num) (value : string)
    (item : Item) : Item :=
  if decide (Some (id item) = editing) then
    {| id := id item; name := trim value;
       completed := completed item; createdAt := createdAt item |}
  else item.

Definition saveEdit (st : TrackerPage) : TrackerPage :=
  let st' :=
    if truthy_string (trim (editValue st)) then
      setItems
        (rename_callback (editingItem st) (editValue st) <$> items st) st
    else st in
  setEditValue "" (setEditingItem None st').

Definition cancelEdit (st : TrackerPage) : TrackerPage :=
  setEditValue "" (setEditingItem None st).

(** The callback of [defaultItems.map] in [addDefaultItems]; [host i] is
    what it reads at index [i]. *)
Definition default_item (host : nat → Host) (i : nat) (name0 : string)
  : Item :=
  {| id := num_add (Date_now (host i)) (Math_random (host i));
     name := name0;
     completed := ∅;
     createdAt := toISOString (host i) |}.

Definition addDefaultItems (host : nat → Host) (defaultItems : list string)
    (st : TrackerPage) : TrackerPage :=
  let newDefaults := imap (default_item host) defaultItems in
  setItems (items st ++ newDefaults) st.

(** *** The operations of the category store, as the page dispatches them *)

(** Typing [name0] into the input, then the add button. *)
Definition Add (h : Host) (name0 : string) (st : TrackerPage) : TrackerPage :=
  addItem h (setNewItem name0 st).

(** The edit box open on [id0] and holding [newName], then the save button. *)
Definition Rename (id0 : num) (newName : string) (st : TrackerPage)
  : TrackerPage :=
  saveEdit (setEditValue newName (setEditingItem (Some id0) st)).

Definition Delete (id0 : num) (st : TrackerPage) : TrackerPage :=
  deleteItem id0 st.

Definition ToggleToday (today : string) (id0 : num) (st : TrackerPage)
  : TrackerPage :=
  toggleComplete today id0 st.

Definition BulkSeed (host : nat → Host) (names : list string)
    (st : TrackerPage) : TrackerPage :=
  addDefaultItems host names st.

Definition ids (l : list Item) : list num := id <$> l.

End Tracker.

(** ** The application: six stores, export and import *)

Module Snapshot.

(** The values [JSON.parse] returns.  An object is the list of its own
    properties, each key once, in the order of their definition. *)
Inductive value : Type :=
| VNull
| VBool (b : bool)
| VNum (n : num)
| VStr (s : string)
| VArr (elements : list value)
| VObj (fields : list (string * value)).

(** [ToBoolean]. *)
Definition truthy (v : value) : bool :=
  match v with
  | VNull => false
  | VBool b => b
  | VNum n => bool_decide (n ≠ number (Qmake 0 1))
  | VStr s => truthy_string s
  | VArr _ | VObj _ => true
  end.

Definition isArray (v : value) : bool :=
  match v with VArr _ => true | _ => false end.

Fixpoint lookup_field (key : string) (fields : list (string * value))
  : option value :=
  match fields with
  | [] => None
  | (k, v) :: fields' =>
      if decide (k = key) then Some v else lookup_field key fields'
  end.

(** The property [key] of a value other than [null], for [key] one of the
    six category keys: an object has it when it is among its own properties;
    strings, numbers, booleans and arrays have no property of such a name. *)
Definition property (data : value) (key : string) : option value :=
  match data with
  | VObj fields => lookup_field key fields
  | VNull | VBool _ | VNum _ | VStr _ | VArr _ => None
  end.

(** The six categories and the property of the snapshot document that
    carries each. *)
Inductive category : Type :=
  skincare | haircare | supplements | study | bodycare | exercise.

#[global] Instance category_eq_dec : EqDecision category.
Proof. solve_decision. Defined.

Definition category_key (c : category) : string :=
  match c with
  | skincare => "skincare"
  | haircare => "haircare"
  | supplements => "supplements"
  | study => "study"
  | bodycare => "bodycare"
  | exercise => "exercise"
  end.

(** The key of [useLocalStorage] for a category. *)
Definition storage_key (c : category) : string :=
  match c with
  | skincare => "skincare-items"
  | haircare => "haircare-items"
  | supplements => "supplements-items"
  | study => "study-items"
  | bodycare => "bodycare-items"
  | exercise => "exercise-items"
  end.

(** The state of [App]: the [storedValue] of each of the six
    [useLocalStorage] hooks, and the browser's [localStorage]. *)
Record App : Type := mkApp {
  skincareItems : value;
  haircareItems : value;
  supplementsItems : value;
  studyItems : value;
  bodycareItems : value;
  exerciseItems : value;
  localStorage : gmap string string
}.

Definition store (c : category) (st : App) : value :=
  match c with
  | skincare => skincareItems st
  | haircare => haircareItems st
  | supplements => supplementsItems st
  | study => studyItems st
  | bodycare => bodycareItems st
  | exercise => exerciseItems st
  end.

(** [setStoredValue] of the hook of category [c]. *)
Definition setStoredValue (c : category) (v : value) (st : App) : App :=
  match c with
  | skincare =>
      mkApp v (haircareItems st) (supplementsItems st) (studyItems st)
        (bodycareItems st) (exerciseItems st) (localStorage st)
  | haircare =>
      mkApp (skincareItems st) v (supplementsItems st) (studyItems st)
        (bodycareItems st) (exerciseItems st) (localStorage st)
  | supplements =>
      mkApp (skincareItems st) (haircareItems st) v (studyItems st)
        (bodycareItems st) (exerciseItems st) (localStorage st)
  | study =>
      mkApp (skincareItems st) (haircareItems st) (supplementsItems st) v
        (bodycareItems st) (exerciseItems st) (localStorage st)
  | bodycare =>
      mkApp (skincareItems st) (haircareItems st) (supplementsItems st)
        (studyItems st) v (exerciseItems st) (localStorage st)
  | exercise =>
      mkApp (skincareItems st) (haircareItems st) (supplementsItems st)
        (studyItems st) (bodycareItems st) v (localStorage st)
  end.

Definition setLocalStorage (ls : gmap string string) (st : App) : App :=
  mkApp (skincareItems st) (haircareItems st) (supplementsItems st)
    (studyItems st) (bodycareItems st) (exerciseItems st) ls.

(** What the browser provides: [JSON.parse] ([None] when it throws a
    [SyntaxError]), [JSON.stringify (v, null, space)], and whether
    [localStorage.setItem (key, s)] is accepted by the current storage
    (it throws when the quota is exceeded). *)
Record Platform : Type := mkPlatform {
  JSON_parse : string → option value;
  JSON_stringify : value → nat → string;
  setItem_accepted : gmap string string → string → string → bool
}.

(** *** Statements that may throw, over the state of [App] *)

Inductive completion (A : Type) : Type :=
| Normal (a : A)
| Throw (error : string).
Arguments Normal {A} a.
Arguments Throw {A} error.

Definition JS (A : Type) : Type := App → App * completion A.

Definition ret {A} (a : A) : JS A := λ st, (st, Normal a).

Definition throw {A} (error : string) : JS A := λ st, (st, Throw error).

Definition bind {A B} (m : JS A) (k : A → JS B) : JS B :=
  λ st,
    match m st with
    | (st', Normal a) => k a st'
    | (st', Throw e) => (st', Throw e)
    end.

(** [try { m } catch (error) { handler }]: the handler runs in the state
    the body reached. *)
Definition try_catch {A} (m : JS A) (handler : string → JS A) : JS A :=
  λ st,
    match m st with
    | (st', Normal a) => (st', Normal a)
    | (st', Throw e) => handler e st'
    end.

Definition modify (f : App → App) : JS unit := λ st, (f st, Normal tt).

#[global] Instance JS_ret : MRet JS := @ret.
#[global] Instance JS_bind : MBind JS := λ A B k m, bind m k.

Section WithPlatform.

Variable P : Platform.

(** [localStorage.setItem (key, s)]. *)
Definition setItem (key s : string) : JS unit :=
  λ st,
    if setItem_accepted P (localStorage st) key s then
      (setLocalStorage (<[key := s]> (localStorage st)) st, Normal tt)
    else (st, Throw "QuotaExceededError").

(** [setValue] of [useLocalStorage (storage_key c, [])]. *)
Definition setValue (c : category) (v : value) : JS unit :=
  try_catch
    (modify (setStoredValue c v) ;;
     setItem (storage_key c) (JSON_stringify P v 0))
    (λ error, ret tt).

(** [data.key] for [key] one of the six category keys: reading a property
    of [null] throws, any other read gives the property or [undefined]
    ([None]). *)
Definition get (data : value) (key : string) : JS (option value) :=
  match data with
  | VNull => throw "TypeError"
  | _ => ret (property data key)
  end.

(** [if (data.key) setter (data.key);] *)
Definition import_category (data : value) (c : category) : JS unit :=
  test ← get data (category_key c);
  match test with
  | Some v =>
      if truthy v then
        (arg ← get data (category_key c);
         match arg with
         | Some v' => setValue c v'
         | None => ret tt
         end)
      else ret tt
  | None => ret tt
  end.

Definition parse (text : string) : JS value :=
  match JSON_parse P text with
  | Some data => ret data
  | None => throw "SyntaxError"
  end.

Definition import_success : string := "Data imported successfully!".
Definition import_error : string :=
  "Error importing data. Please check the file format.".

(** [reader.onload]: the body of the [try], then the [catch]; the result
    is the text of the [alert]. *)
Definition onload (text : string) : JS string :=
  try_catch
    (data ← parse text;
     import_category data skincare ;;
     import_category data haircare ;;
     import_category data supplements ;;
     import_category data study ;;
     import_category data bodycare ;;
     import_category data exercise ;;
     ret import_success)
    (λ error, ret import_error).

(** [handleImport]: [file] is the text of the chosen file, [None] when the
    file dialog was closed without a choice.  The result is the state and
    the alert shown, if any. *)
Definition handleImport (file : option string) (st : App)
  : App * option string :=
  match file with
  | Some text =>
      match onload text st with
      | (st', Normal msg) => (st', Some msg)
      | (st', Throw _) => (st', None)
      end
  | None => (st, None)
  end.

(** The object [handleExport] builds; [iso] is
    [new Date().toISOString()]. *)
Definition export_data (iso : string) (st : App) : value :=
  VObj [("skincare", skincareItems st);
        ("haircare", haircareItems st);
        ("supplements", supplementsItems st);
        ("study", studyItems st);
        ("bodycare", bodycareItems st);
        ("exercise", exerciseItems st);
        ("exportDate", VStr iso)].

(** [exportData]: the name and the text of the file offered for download. *)
Definition exportData (data : value) (filename : string) : string * string :=
  let dataStr := JSON_stringify P data 2 in
  (filename, dataStr).

Definition handleExport (iso : string) (st : App) : string * string :=
  exportData (export_data iso st) "daily-glow-tracker-backup.json".

(** Export followed by import of the downloaded file into [st']. *)
Definition Export (iso : string) (st : App) : string :=
  snd (handleExport iso st).

Definition Import (text : string) (st : App) : App * option string :=
  handleImport (Some text) st.

End WithPlatform.

End Snapshot.

(** ** A reference JSON codec

    An executable [Platform], used to run the handlers on concrete files.
    It reads and writes the JSON grammar without exponents in numbers; of
    the escapes it knows the two-character ones and [\u00XX].  Numbers are
    written with their exact decimal expansion. *)

Module RefJSON.
Import Snapshot.
Local Open Scope string_scope.

Definition dquote : ascii := "034"%char.
Definition backslash : ascii := "092"%char.

Definition chr (n : N) : ascii := ascii_of_N n.

(** *** Writing *)

Fixpoint digits_go (fuel : nat) (n : N) (acc : string) : string :=
  match fuel with
  | O => acc
  | S fuel' =>
      let acc' := String (chr (48 + n mod 10)) acc in
      if (n / 10 =? 0)%N then acc' else digits_go fuel' (n / 10)%N acc'
  end.

Definition digits (n : N) : string :=
  digits_go (S (N.to_nat (N.log2 n))) n EmptyString.

(** The digits of [r / d] after the decimal point, for [0 <= r < d]. *)
Fixpoint fraction_go (fuel : nat) (r d : N) : string :=
  match fuel with
  | O => EmptyString
  | S fuel' =>
      if (r =? 0)%N then EmptyString
      else String (chr (48 + (10 * r) / d))
             (fraction_go fuel' ((10 * r) mod d)%N d)
  end.

Definition write_number (x : num) : string :=
  let n := Z.abs_N (Qnum x) in
  let d := Npos (Qden x) in
  let sign := if (Qnum x <? 0)%Z then "-" else EmptyString in
  let frac := fraction_go (S (N.to_nat (N.log2 d))) (n mod d)%N d in
  sign ++ digits (n / d)%N ++
  match frac with
  | EmptyString => EmptyString
  | _ => "." ++ frac
  end.

Definition hex_digit (n : N) : ascii :=
  if (n <? 10)%N then chr (48 + n) else chr (87 + n).

Fixpoint write_chars (s : string) : string :=
  match s with
  | EmptyString => EmptyString
  | String c s' =>
      let n := N_of_ascii c in
      (if decide (c = dquote) then String backslash (String dquote EmptyString)
       else if decide (c = backslash)
            then String backslash (String backslash EmptyString)
       else if (n =? 8)%N then String backslash "b"
       else if (n =? 9)%N then String backslash "t"
       else if (n =? 10)%N then String backslash "n"
       else if (n =? 12)%N then String backslash "f"
       else if (n =? 13)%N then String backslash "r"
       else if (n <? 32)%N
            then String backslash
                   ("u00" ++ String (hex_digit (n / 16))
                               (String (hex_digit (n mod 16)) EmptyString))
       else String c EmptyString) ++ write_chars s'
  end.

Definition write_string (s : string) : string :=
  String dquote (write_chars s ++ String dquote EmptyString).

Fixpoint join (sep : string) (l : list string) : string :=
  match l with
  | [] => EmptyString
  | [s] => s
  | s :: l' => s ++ sep ++ join sep l'
  end.

Definition newline : string := String (chr 10) EmptyString.

Fixpoint spaces (n : nat) : string :=
  match n with O => EmptyString | S n' => String " "%char (spaces n') end.

(** [open] and [close] around the members, one per line when [gap] is
    not empty. *)
Definition wrap (open close gap indent : string) (members : list string)
  : string :=
  match members, gap with
  | [], _ => open ++ close
  | _, EmptyString => open ++ join "," members ++ close
  | _, _ =>
      open ++ newline ++ indent ++ gap ++
      join ("," ++ newline ++ indent ++ gap) members ++
      newline ++ indent ++ close
  end.

Fixpoint write (gap indent : string) (v : value) : string :=
  match v with
  | VNull => "null"
  | VBool true => "true"
  | VBool false => "false"
  | VNum n => write_number n
  | VStr s => write_string s
  | VArr elements =>
      wrap "[" "]" gap indent (map (write gap (indent ++ gap)) elements)
  | VObj fields =>
      wrap "{" "}" gap indent
        (map (λ kv,
           write_string (fst kv) ++
           (match gap with EmptyString => ":" | _ => ": " end) ++
           write gap (indent ++ gap) (snd kv)) fields)
  end.

Definition stringify (v : value) (space : nat) : string :=
  write (spaces space) EmptyString v.

(** *** Reading *)

Definition is_ws (c : ascii) : bool :=
  match N_of_ascii c with
  | 9%N | 10%N | 13%N | 32%N => true
  | _ => false
  end.

Fixpoint skip_ws (s : string) : string :=
  match s with
  | String c s' => if is_ws c then skip_ws s' else s
  | EmptyString => s
  end.

Definition digit_of (c : ascii) : option N :=
  let n := N_of_ascii c in
  if ((48 <=? n) && (n <=? 57))%N then Some (n - 48)%N else None.

Definition hex_of (c : ascii) : option N :=
  let n := N_of_ascii c in
  if ((48 <=? n) && (n <=? 57))%N then Some (n - 48)%N
  else if ((97 <=? n) && (n <=? 102))%N then Some (n - 87)%N
  else if ((65 <=? n) && (n <=? 70))%N then Some (n - 55)%N
  else None.

(** A run of digits: its value, its length and the rest of the text. *)
Fixpoint read_digits (s : string) (acc : N) (len : nat) : N * nat * string :=
  match s with
  | String c s' =>
      match digit_of c with
      | Some d => read_digits s' (10 * acc + d)%N (S len)
      | None => (acc, len, s)
      end
  | EmptyString => (acc, len, s)
  end.

Definition read_fraction (s : string) : option (N * nat * string) :=
  match s with
  | String "."%char s' =>
      match read_digits s' 0%N O with
      | (_, O, _) => None
      | r => Some r
      end
  | _ => Some (0%N, O, s)
  end.

Definition read_unsigned (s : string) : option (Q * string) :=
  match s with
  | String c s' =>
      match digit_of c with
      | Some d =>
          let '(i, rest) :=
            if (d =? 0)%N then (0%N, s')
            else let '(i, _, rest) := read_digits s 0%N O in (i, rest) in
          match read_fraction rest with
          | Some (f, len, rest') =>
              let scale := (10 ^ Z.of_nat len)%Z in
              Some (Qmake (Z.of_N i * scale + Z.of_N f)
                      (Z.to_pos scale), rest')
          | None => None
          end
      | None => None
      end
  | EmptyString => None
  end.

Definition read_number (s : string) : option (value * string) :=
  match s with
  | String "-"%char s' =>
      match read_unsigned s' with
      | Some (q, rest) => Some (VNum (number (Qopp q)), rest)
      | None => None
      end
  | _ =>
      match read_unsigned s with
      | Some (q, rest) => Some (VNum (number q), rest)
      | None => None
      end
  end.

(** The characters of a string up to its closing quote. *)
Fixpoint read_chars (fuel : nat) (s : string) : option (string * string) :=
  match fuel with
  | O => None
  | S fuel' =>
      match s with
      | EmptyString => None
      | String c s' =>
          if decide (c = dquote) then Some (EmptyString, s')
          else if decide (c = backslash) then
            match s' with
            | String e s'' =>
                let simple (c' : ascii) :=
                  match read_chars fuel' s'' with
                  | Some (t, rest) => Some (String c' t, rest)
                  | None => None
                  end in
                if decide (e = dquote) then simple dquote
                else if decide (e = backslash) then simple backslash
                else
                  match e with
                  | "/"%char => simple "/"%char
                  | "b"%char => simple (chr 8)
                  | "f"%char => simple (chr 12)
                  | "n"%char => simple (chr 10)
                  | "r"%char => simple (chr 13)
                  | "t"%char => simple (chr 9)
                  | "u"%char =>
                      match s'' with
                      | String "0"%char (String "0"%char
                          (String h1 (String h2 s3))) =>
                          match hex_of h1, hex_of h2, read_chars fuel' s3 with
                          | Some a, Some b, Some (t, rest) =>
                              Some (String (chr (16 * a + b)) t, rest)
                          | _, _, _ => None
                          end
                      | _ => None
                      end
                  | _ => None
                  end
            | EmptyString => None
            end
          else if (N_of_ascii c <? 32)%N then None
          else
            match read_chars fuel' s' with
            | Some (t, rest) => Some (String c t, rest)
            | None => None
            end
      end
  end.

Definition read_string (s : string) : option (string * string) :=
  read_chars (S (String.length s)) s.

Fixpoint prefix_rest (p s : string) : option string :=
  match p, s with
  | EmptyString, _ => Some s
  | String a p', String b s' =>
      if decide (a = b) then prefix_rest p' s' else None
  | String _ _, EmptyString => None
  end.

Definition read_literal (word : string) (v : value) (s : string)
  : option (value * string) :=
  match prefix_rest word s with
  | Some rest => Some (v, rest)
  | None => None
  end.

(** Defining a property: a key that is already there keeps its place and
    takes the new value. *)
Fixpoint define (key : string) (v : value) (fields : list (string * value))
  : list (string * value) :=
  match fields with
  | [] => [(key, v)]
  | (k, v0) :: fields' =>
      if decide (k = key) then (k, v) :: fields'
      else (k, v0) :: define key v fields'
  end.

Fixpoint read_value (fuel : nat) (s : string) : option (value * string) :=
  match fuel with
  | O => None
  | S fuel' =>
      match skip_ws s with
      | String "n"%char _ => read_literal "null" VNull (skip_ws s)
      | String "t"%char _ => read_literal "true" (VBool true) (skip_ws s)
      | String "f"%char _ => read_literal "false" (VBool false) (skip_ws s)
      | String "["%char rest =>
          match skip_ws rest with
          | String "]"%char rest' => Some (VArr [], rest')
          | _ => read_elements fuel' rest []
          end
      | String "{"%char rest =>
          match skip_ws rest with
          | String "}"%char rest' => Some (VObj [], rest')
          | _ => read_members fuel' rest []
          end
      | String c rest =>
          if decide (c = dquote) then
            match read_string rest with
            | Some (t, rest') => Some (VStr t, rest')
            | None => None
            end
          else read_number (skip_ws s)
      | EmptyString => None
      end
  end
with read_elements (fuel : nat) (s : string) (acc : list value)
  : option (value * string) :=
  match fuel with
  | O => None
  | S fuel' =>
      match read_value fuel' s with
      | Some (v, rest) =>
          match skip_ws rest with
          | String ","%char rest' => read_elements fuel' rest' (acc ++ [v])%list
          | String "]"%char rest' => Some (VArr (acc ++ [v])%list, rest')
          | _ => None
          end
      | None => None
      end
  end
with read_members (fuel : nat) (s : string) (acc : list (string * value))
  : option (value * string) :=
  match fuel with
  | O => None
  | S fuel' =>
      match skip_ws s with
      | String c rest =>
          if decide (c = dquote) then
            match read_string rest with
            | Some (key, rest1) =>
                match skip_ws rest1 with
                | String ":"%char rest2 =>
                    match read_value fuel' rest2 with
                    | Some (v, rest3) =>
                        match skip_ws rest3 with
                        | String ","%char rest4 =>
                            read_members fuel' rest4 (define key v acc)
                        | String "}"%char rest4 =>
                            Some (VObj (define key v acc), rest4)
                        | _ => None
                        end
                    | None => None
                    end
                | _ => None
                end
            | None => None
            end
          else None
      | EmptyString => None
      end
  end.

Definition parse (text : string) : option value :=
  match read_value (2 * String.length text + 2) text with
  | Some (v, rest) =>
      match skip_ws rest with
      | EmptyString => Some v
      | String _ _ => None
      end
  | None => None
  end.

(** The reference platform: the codec above and a storage that accepts
    every write. *)
Definition platform : Platform :=
  {| JSON_parse := parse;
     JSON_stringify := stringify;
     setItem_accepted := λ _ _ _, true |}.

(** The same with a storage that is full. *)
Definition platform_full : Platform :=
  {| JSON_parse := parse;
     JSON_stringify := stringify;
     setItem_accepted := λ _ _ _, false |}.

End RefJSON.

(** ** Sample states *)

Module Examples.
Import Tracker Snapshot.

(** [new Date().toDateString()], [Date.now()] and
    [new Date().toISOString()] on 14 November 2023, 22:13:20 UTC. *)
Definition today : string := "Tue Nov 14 2023".
Definition now0 : num := number (inject_Z 1700000000000).
Definition iso0 : string := "2023-11-14T22:13:20.000Z".

Definition host0 : Host := mkHost now0 (number (Qmake 1 2)) iso0.

Definition empty_page : TrackerPage := mkTrackerPage [] EmptyString None EmptyString.

Definition yoga : Item := mkItem now0 "Yoga" ∅ iso0.

Definition yoga_page : TrackerPage :=
  mkTrackerPage [yoga] EmptyString None EmptyString.

(** An item already ticked today, and one never touched. *)
Definition walk : Item :=
  mkItem (number (inject_Z 1699999990000)) "Walk" {[ today := true ]}
    "2023-11-14T22:13:10.000Z".

Definition two_page : TrackerPage :=
  mkTrackerPage [walk; yoga] EmptyString None EmptyString.

Definition walk_page : TrackerPage :=
  mkTrackerPage [walk] EmptyString None EmptyString.

(** The default items of the study page the scenario names. *)
Definition study_names : list string :=
  ["Read for 30 minutes"; "Review notes"].

(** Two callbacks in the same millisecond, with two different random draws:
    [0.5] and [0.5 + 2^-20]. *)
Definition same_instant (i : nat) : Host :=
  match i with
  | O => mkHost now0 (number (Qmake 1 2)) iso0
  | S _ => mkHost now0 (number (Qmake 524289 1048576)) iso0
  end.

(** Two callbacks in the same millisecond, with draws [0.25] and [0.75]. *)
Definition spread_draws (i : nat) : Host :=
  match i with
  | O => mkHost now0 (number (Qmake 1 4)) iso0
  | S _ => mkHost now0 (number (Qmake 3 4)) iso0
  end.

(** *** Documents and application states *)

Definition quoted (s : string) : string :=
  String RefJSON.dquote (String.app s (String RefJSON.dquote EmptyString)).

(** The item [walk] as [JSON.parse] returns it. *)
Definition walk_value : value :=
  VObj [("id", VNum (number (inject_Z 1699999990000)));
        ("name", VStr "Walk");
        ("completed", VObj [(today, VBool true)]);
        ("createdAt", VStr "2023-11-14T22:13:10.000Z")].

Definition yoga_value : value :=
  VObj [("id", VNum now0);
        ("name", VStr "Yoga");
        ("completed", VObj []);
        ("createdAt", VStr iso0)].

(** An item made by [addDefaultItems]: its id has a fraction. *)
Definition read_value : value :=
  VObj [("id", VNum (number (Qmake 6800000000001 4)));
        ("name", VStr "Read for 30 minutes");
        ("completed", VObj []);
        ("createdAt", VStr iso0)].

Definition empty_app : App :=
  mkApp (VArr []) (VArr []) (VArr []) (VArr []) (VArr []) (VArr []) ∅.

Definition sample_app : App :=
  mkApp (VArr [yoga_value]) (VArr []) (VArr []) (VArr [read_value])
    (VArr []) (VArr [walk_value; yoga_value]) ∅.

(** A file that is not JSON. *)
Definition bad_text : string := "not valid json".

(** [{"skincare": "x"}]: the category key holds a string. *)
Definition string_text : string :=
  String.app "{" (String.app (quoted "skincare")
    (String.app ": " (String.app (quoted "x") "}"))).

(** [{"skincare": [], "study": 0, "exercise": null}]. *)
Definition partial_text : string :=
  String.app "{" (String.app (quoted "skincare")
    (String.app ": [], " (String.app (quoted "study")
      (String.app ": 0, " (String.app (quoted "exercise") ": null}"))))).

Definition partial_data : value :=
  VObj [("skincare", VArr []);
        ("study", VNum (number (Qmake 0 1)));
        ("exercise", VNull)].

End Examples.

(** ** What the tracker page renders, and the events it dispatches *)

Module Page.
Import Tracker.

(** [checked={!!item.completed[today]}] of the row's checkbox. *)
Definition checked (today : string) (item : Item) : bool :=
  truthy_flag (completed item !! today).

(** [defaultItems.length > 0 && items.length === 0]: whether the button
    "Add Default Items" is rendered. *)
Definition showAddDefaults (defaultItems : list string) (l : list Item)
  : bool :=
  (0 <? length defaultItems)%nat && (length l =? 0)%nat.

(** [editingItem === item.id]: whether the row of [item] shows the edit box
    with its save and cancel buttons (else it shows the name with the edit
    and delete buttons). *)
Definition rowEditing (st : TrackerPage) (item : Item) : bool :=
  bool_decide (editingItem st = Some (id item)).

(** The events of the rendered controls; [row] is the index of the row in
    [items.map]. *)
Inductive event : Type :=
| ChangeNewItem (text : string)
| ClickAdd (h : Host)
| ClickAddDefaults (host : nat → Host)
| ChangeCheckbox (today : string) (row : nat)
| ClickEdit (row : nat)
| ClickDelete (row : nat)
| ChangeEditValue (row : nat) (text : string)
| ClickSave (row : nat)
| ClickCancel (row : nat).

(** The handler the page runs for an event; [None] when the control is not
    rendered in the state.  [defaultItems] is the prop of the page. *)
Definition dispatch (defaultItems : list string) (e : event)
    (st : TrackerPage) : option TrackerPage :=
  match e with
  | ChangeNewItem text => Some (setNewItem text st)
  | ClickAdd h => Some (addItem h st)
  | ClickAddDefaults host =>
      if showAddDefaults defaultItems (items st)
      then Some (addDefaultItems host defaultItems st)
      else None
  | ChangeCheckbox today row =>
      match items st !! row with
      | Some item => Some (toggleComplete today (id item) st)
      | None => None
      end
  | ClickEdit row =>
      match items st !! row with
      | Some item =>
          if rowEditing st item then None else Some (startEditing item st)
      | None => None
      end
  | ClickDelete row =>
      match items st !! row with
      | Some item =>
          if rowEditing st item then None
          else Some (deleteItem (id item) st)
      | None => None
      end
  | ChangeEditValue row text =>
      match items st !! row with
      | Some item =>
          if rowEditing st item then Some (setEditValue text st) else None
      | None => None
      end
  | ClickSave row =>
      match items st !! row with
      | Some item => if rowEditing st item then Some (saveEdit st) else None
      | None => None
      end
  | ClickCancel row =>
      match items st !! row with
      | Some item => if rowEditing st item then Some (cancelEdit st) else None
      | None => None
      end
  end.

(** The events whose handler calls [setItems]. *)
Definition callsSetItems (e : event) : bool :=
  match e with
  | ClickAdd _ | ClickAddDefaults _ | ChangeCheckbox _ _ | ClickDelete _
  | ClickSave _ => true
  | ChangeNewItem _ | ClickEdit _ | ChangeEditValue _ _ | ClickCancel _ =>
      false
  end.

(** The edit cells agree with the rows: with no edit box open the edit
    text is empty, and an open edit box belongs to an item of the
    sequence. *)
Definition edit_box_consistent (st : TrackerPage) : Prop :=
  match editingItem st with
  | None => editValue st = EmptyString
  | Some id0 => id0 ∈ ids (items st)
  end.

(** A session: the events one after the other, each on the page the one
    before left. *)
Fixpoint run (defaultItems : list string) (events : list event)
    (st : TrackerPage) : option TrackerPage :=
  match events with
  | [] => Some st
  | e :: events' =>
      match dispatch defaultItems e st with
      | Some st' => run defaultItems events' st'
      | None => None
      end
  end.

End Page.

(** ** Loading the stores, and the theme *)

Module Storage.
Import Snapshot.

(** The initial state of [useLocalStorage (key, initialValue)]:
    [item ? JSON.parse (item) : initialValue], and [initialValue] when the
    parse throws. *)
Definition useLocalStorage_init (P : Platform) (key : string)
    (initialValue : value) (ls : gmap string string) : value :=
  match ls !! key with
  | Some item =>
      if truthy_string item then
        match JSON_parse P item with
        | Some v => v
        | None => initialValue
        end
      else initialValue
  | None => initialValue
  end.

(** The store of a category as the hook of [App] loads it. *)
Definition load (P : Platform) (ls : gmap string string) (c : category)
  : value :=
  useLocalStorage_init P (storage_key c) (VArr []) ls.

(** The state of [App] at its first render over the storage [ls]. *)
Definition App_init (P : Platform) (ls : gmap string string) : App :=
  mkApp (load P ls skincare) (load P ls haircare) (load P ls supplements)
    (load P ls study) (load P ls bodycare) (load P ls exercise) ls.

(** The value [handleImport] passes to the setter of a category, if it
    calls the setter at all. *)
Definition imported (data : value) (c : category) : option value :=
  match property data (category_key c) with
  | Some v => if truthy v then Some v else None
  | None => None
  end.

End Storage.

Module Theme.
Import Snapshot Storage.

(** What the state of [useDarkMode] can hold: a value loaded from the
    storage, or the click event that React passes to an [onClick]. *)
Inductive jsval : Type :=
| Json (v : value)
| ClickEvent.

Definition truthy_js (x : jsval) : bool :=
  match x with
  | Json v => truthy v
  | ClickEvent => true
  end.

(** [isDark], whether [document.documentElement] carries the class
    [dark] (set by the effect after each render), and the storage. *)
Record DarkMode : Type := mkDarkMode {
  isDark : jsval;
  dark_class : bool;
  theme_storage : gmap string string
}.

Section WithPlatform.

Variable P : Platform.

(** [JSON.stringify] of the click event: a text, or [None] when it
    throws (the event reaches DOM nodes, which can be circular). *)
Variable event_json : option string.

Definition stringify_js (x : jsval) : option string :=
  match x with
  | Json v => Some (JSON_stringify P v 0)
  | ClickEvent => event_json
  end.

(** [useDarkMode] at the first render, after its effect has run. *)
Definition useDarkMode_init (ls : gmap string string) : DarkMode :=
  let v := Json (useLocalStorage_init P "darkMode" (VBool false) ls) in
  mkDarkMode v (truthy_js v) ls.

(** [setIsDark], the [setValue] of [useLocalStorage ('darkMode', false)],
    followed by the effect [classList.toggle ('dark', isDark)]. *)
Definition setIsDark (x : jsval) (st : DarkMode) : DarkMode :=
  let ls := theme_storage st in
  let ls' :=
    match stringify_js x with
    | Some s =>
        if setItem_accepted P ls "darkMode" s
        then <["darkMode" := s]> ls else ls
    | None => ls
    end in
  mkDarkMode x (truthy_js x) ls'.

(** [App] names the setter [toggleDarkMode] and [Navbar] installs it as the
    [onClick] of the theme button: a click calls it with the event. *)
Definition toggleDarkMode (x : jsval) (st : DarkMode) : DarkMode :=
  setIsDark x st.

Definition click_theme_button (st : DarkMode) : DarkMode :=
  toggleDarkMode ClickEvent st.

End WithPlatform.

End Theme.

(** ** More sample states *)

Module Samples.
Import Tracker Snapshot.

(** A page with the edit box open on [yoga]. *)
Definition editing_page : TrackerPage :=
  mkTrackerPage [Examples.walk; Examples.yoga] EmptyString
    (Some Examples.now0) "Yoga".

(** A storage with a sequence under one key, a text that is not JSON under
    another and an empty text under a third. *)
Definition mixed_storage : gmap string string :=
  {[ "skincare-items" := "[]";
     "study-items" := "not valid json";
     "exercise-items" := EmptyString;
     "darkMode" := "true" ]}.

End Samples.

(** * Properties of the tracker component *)

Module TrackerFacts.
Import Tracker.

Lemma truthy_string_false (s : string) :
  truthy_string s = false ↔ s = EmptyString.
Proof. destruct s; simpl; split; congruence. Qed.

Lemma truthy_string_true (s : string) :
  truthy_string s = true ↔ s ≠ EmptyString.
Proof. destruct s; simpl; split; congruence. Qed.

Lemma Item_eq (a b : Item) :
  id a = id b → name a = name b → completed a = completed b →
  createdAt a = createdAt b → a = b.
Proof. destruct a, b; simpl; congruence. Qed.

Lemma elem_of_ids (x : num) (l : list Item) :
  x ∈ ids l ↔ ∃ item, item ∈ l ∧ id item = x.
Proof.
  unfold ids. rewrite list_elem_of_fmap. split.
  - intros (item & -> & Hin). eauto.
  - intros (item & Hin & <-). eauto.
Qed.

(** ** The callbacks, item by item *)

Lemma toggle_callback_other today id0 item :
  id item ≠ id0 → toggle_callback today id0 item = item.
Proof. intros Hne. unfold toggle_callback. by rewrite decide_False. Qed.

Lemma toggle_callback_id today id0 item :
  id (toggle_callback today id0 item) = id item.
Proof. unfold toggle_callback. by case_decide. Qed.

Lemma toggle_callback_name today id0 item :
  name (toggle_callback today id0 item) = name item.
Proof. unfold toggle_callback. by case_decide. Qed.

Lemma toggle_callback_createdAt today id0 item :
  createdAt (toggle_callback today id0 item) = createdAt item.
Proof. unfold toggle_callback. by case_decide. Qed.

Lemma toggle_callback_frame today id0 item day :
  day ≠ today →
  completed (toggle_callback today id0 item) !! day = completed item !! day.
Proof.
  intros Hday. unfold toggle_callback. case_decide; [simpl|done].
  by rewrite lookup_insert_ne.
Qed.

Lemma toggle_callback_same today item :
  toggle_callback today (id item) item
  = {| id := id item; name := name item;
       completed :=
         <[today := negb (truthy_flag (completed item !! today))]>
           (completed item);
       createdAt := createdAt item |}.
Proof. unfold toggle_callback. by rewrite decide_True. Qed.

Lemma toggle_callback_today today item :
  completed (toggle_callback today (id item) item) !! today
  = Some (negb (truthy_flag (completed item !! today))).
Proof. rewrite toggle_callback_same. simpl. by rewrite lookup_insert_eq. Qed.

Lemma toggle_callback_twice_completed today item :
  completed (toggle_callback today (id item)
               (toggle_callback today (id item) item))
  = <[today := truthy_flag (completed item !! today)]> (completed item).
Proof.
  rewrite (toggle_callback_same today item).
  set (item1 := mkItem _ _ _ _).
  change (id item) with (id item1). rewrite toggle_callback_same.
  subst item1. simpl.
  rewrite lookup_insert_eq, insert_insert_eq. simpl.
  by rewrite negb_involutive.
Qed.

Lemma toggle_callback_twice today id0 item :
  is_Some (completed item !! today) →
  toggle_callback today id0 (toggle_callback today id0 item) = item.
Proof.
  intros [b Hb]. destruct (decide (id item = id0)) as [<-|Hne].
  - apply Item_eq; rewrite ?toggle_callback_id, ?toggle_callback_name,
      ?toggle_callback_createdAt; try done.
    rewrite toggle_callback_twice_completed, Hb. simpl.
    by apply insert_id.
  - by rewrite !(toggle_callback_other _ _ item).
Qed.

Lemma toggle_callback_twice_flag today id0 item day :
  truthy_flag
    (completed (toggle_callback today id0 (toggle_callback today id0 item))
       !! day)
  = truthy_flag (completed item !! day).
Proof.
  destruct (decide (id item = id0)) as [<-|Hne].
  - rewrite toggle_callback_twice_completed.
    destruct (decide (today = day)) as [->|Hday].
    + by rewrite lookup_insert_eq.
    + by rewrite lookup_insert_ne.
  - by rewrite !(toggle_callback_other _ _ item).
Qed.

Lemma rename_callback_other editing value item :
  Some (id item) ≠ editing → rename_callback editing value item = item.
Proof. intros Hne. unfold rename_callback. by rewrite decide_False. Qed.

(** ** The handlers on the sequence of items *)

Lemma items_toggleComplete today id0 st :
  items (toggleComplete today id0 st) = toggle_callback today id0 <$> items st.
Proof. done. Qed.

Lemma items_deleteItem id0 st :
  items (deleteItem id0 st) = filter (λ item, id item ≠ id0) (items st).
Proof. done. Qed.

Lemma items_Rename id0 newName st :
  items (Rename id0 newName st)
  = if truthy_string (trim newName)
    then rename_callback (Some id0) newName <$> items st
    else items st.
Proof. unfold Rename, saveEdit. simpl. by destruct (truthy_string _). Qed.

Lemma items_Add h name0 st :
  items (Add h name0 st)
  = if truthy_string (trim name0)
    then items st ++ [mkItem (Date_now h) (trim name0) ∅ (toISOString h)]
    else items st.
Proof. unfold Add, addItem. simpl. by destruct (truthy_string _). Qed.

Lemma items_BulkSeed host names st :
  items (BulkSeed host names st) = items st ++ imap (default_item host) names.
Proof. done. Qed.

Lemma fmap_id_on {A} (f : A → A) (l : list A) :
  (∀ x, x ∈ l → f x = x) → f <$> l = l.
Proof.
  induction l as [|x l IH]; intros Hf; [done|]. simpl.
  rewrite Hf by left. f_equal. apply IH. intros y Hy. apply Hf. by right.
Qed.

Lemma filter_all {A} (P : A → Prop) `{∀ x, Decision (P x)} (l : list A) :
  (∀ x, x ∈ l → P x) → filter P l = l.
Proof.
  induction l as [|x l IH]; intros HP; [done|].
  rewrite filter_cons_True by (apply HP; left).
  f_equal. apply IH. intros y Hy. apply HP. by right.
Qed.


Lemma sublist_filter_self {A} (P : A → Prop) `{∀ x, Decision (P x)}
    (l : list A) :
  filter P l `sublist_of` l.
Proof.
  induction l as [|x l IH]; [constructor|].
  destruct (decide (P x)).
  - rewrite filter_cons_True by done. by constructor.
  - rewrite filter_cons_False by done. by constructor.
Qed.

Lemma lookup_toggle_twice today id0 st i :
  items (ToggleToday today id0 (ToggleToday today id0 st)) !! i
  = (λ item, toggle_callback today id0 (toggle_callback today id0 item))
      <$> items st !! i.
Proof.
  unfold ToggleToday. rewrite !items_toggleComplete, !list_lookup_fmap.
  by destruct (items st !! i).
Qed.

(** ** Toggling *)

(** C1, as stated, fails: an item never touched today does not come back
    to its original state after two toggles; the second toggle leaves an
    explicit [false] under today's key. *)
Lemma toggle_twice_not_original :
  ToggleToday Examples.today Examples.now0
    (ToggleToday Examples.today Examples.now0 Examples.yoga_page)
  = mkTrackerPage
      [mkItem Examples.now0 "Yoga" {[ Examples.today := false ]} Examples.iso0]
      EmptyString None EmptyString
  ∧ ToggleToday Examples.today Examples.now0
      (ToggleToday Examples.today Examples.now0 Examples.yoga_page)
    ≠ Examples.yoga_page.
Proof.
  split; [by vm_compute|].
  intros Heq.
  apply (f_equal (λ st, item ← items st !! 0%nat;
                        completed item !! Examples.today)) in Heq.
  vm_compute in Heq. discriminate.
Qed.

(** C1, amended: two toggles of the same id on the same day give back the
    original state when every item with that id already has an entry for
    today; when the entry is absent they leave the explicit entry [false]
    under today's key; in every case they give back each item's id, name and
    creation time, every entry of other days and the completion flag the
    page reads for every day.  One toggle leaves the items with another id
    as they are and, in the items with the id, changes today's entry only:
    id, name, creation time and the entries of other days stay. *)
Theorem toggle_twice (today : string) (id0 : num) (st : TrackerPage) :
  ((∀ item, item ∈ items st → id item = id0 →
      is_Some (completed item !! today)) →
   ToggleToday today id0 (ToggleToday today id0 st) = st)
  ∧ (∀ i item, items st !! i = Some item →
      items (ToggleToday today id0 (ToggleToday today id0 st)) !! i
      = Some (if decide (id item = id0) then
                mkItem (id item) (name item)
                  (<[today := truthy_flag (completed item !! today)]>
                     (completed item))
                  (createdAt item)
              else item))
  ∧ (∀ i item, items st !! i = Some item → id item = id0 →
      completed item !! today = None →
      ∃ item2,
        items (ToggleToday today id0 (ToggleToday today id0 st)) !! i
          = Some item2
        ∧ completed item2 !! today = Some false)
  ∧ (∀ i item, items st !! i = Some item →
      ∃ item2,
        items (ToggleToday today id0 (ToggleToday today id0 st)) !! i
          = Some item2
        ∧ id item2 = id item ∧ name item2 = name item
        ∧ createdAt item2 = createdAt item
        ∧ (∀ day, truthy_flag (completed item2 !! day)
                  = truthy_flag (completed item !! day))
        ∧ (∀ day, day ≠ today →
             completed item2 !! day = completed item !! day))
  ∧ (∀ i item, items st !! i = Some item →
      items (ToggleToday today id0 st) !! i
      = Some (if decide (id item = id0) then
                mkItem (id item) (name item)
                  (<[today := negb (truthy_flag (completed item !! today))]>
                     (completed item))
                  (createdAt item)
              else item))
  ∧ (∀ i item, items st !! i = Some item →
      ∃ item1,
        items (ToggleToday today id0 st) !! i = Some item1
        ∧ id item1 = id item ∧ name item1 = name item
        ∧ createdAt item1 = createdAt item
        ∧ (id item ≠ id0 → item1 = item)
        ∧ (∀ day, day ≠ today →
             completed item1 !! day = completed item !! day))
  ∧ length (items (ToggleToday today id0 st)) = length (items st).
Proof.
  assert (Htwice : ∀ item,
    toggle_callback today id0 (toggle_callback today id0 item)
    = if decide (id item = id0) then
        mkItem (id item) (name item)
          (<[today := truthy_flag (completed item !! today)]>
             (completed item))
          (createdAt item)
      else item).
  { intros item. case_decide as Hid.
    - subst id0. apply Item_eq; simpl;
        rewrite ?toggle_callback_id, ?toggle_callback_name,
          ?toggle_callback_createdAt; try done.
      apply toggle_callback_twice_completed.
    - by rewrite !(toggle_callback_other _ _ item). }
  assert (Honce : ∀ i item, items st !! i = Some item →
    items (ToggleToday today id0 st) !! i
    = Some (toggle_callback today id0 item)).
  { intros i item Hi. unfold ToggleToday.
    by rewrite items_toggleComplete, list_lookup_fmap, Hi. }
  split; [|split; [|split; [|split; [|split; [|split]]]]].
  - intros Htouched. destruct st as [l n e v].
    unfold ToggleToday, toggleComplete, setItems. simpl in *. f_equal.
    rewrite <- list_fmap_compose. apply fmap_id_on. intros item Hin. simpl.
    destruct (decide (id item = id0)) as [Hid|Hid].
    + apply toggle_callback_twice. by apply Htouched.
    + by rewrite !(toggle_callback_other _ _ item).
  - intros i item Hi. rewrite lookup_toggle_twice, Hi. simpl.
    by rewrite Htwice.
  - intros i item Hi Hid Hnone. eexists. split.
    { rewrite lookup_toggle_twice, Hi. reflexivity. }
    rewrite Htwice, decide_True by done. simpl.
    by rewrite lookup_insert_eq, Hnone.
  - intros i item Hi. eexists. split.
    { rewrite lookup_toggle_twice, Hi. reflexivity. }
    rewrite !toggle_callback_id, !toggle_callback_name,
      !toggle_callback_createdAt.
    repeat split.
    + intros day. apply toggle_callback_twice_flag.
    + intros day Hday. by rewrite !toggle_callback_frame.
  - intros i item Hi. by rewrite (Honce i item Hi).
  - intros i item Hi. eexists. split; [by apply Honce|].
    rewrite toggle_callback_id, toggle_callback_name,
      toggle_callback_createdAt.
    repeat split.
    + apply toggle_callback_other.
    + intros day Hday. by apply toggle_callback_frame.
  - unfold ToggleToday. by rewrite items_toggleComplete, length_fmap.
Qed.

(** The amended C1 on a page whose only item is already ticked today, and
    on a page whose only item was never touched. *)
Lemma toggle_twice_witness :
  ToggleToday Examples.today (id Examples.walk)
    (ToggleToday Examples.today (id Examples.walk) Examples.walk_page)
  = Examples.walk_page
  ∧ ∃ item2,
      items (ToggleToday Examples.today (id Examples.yoga)
               (ToggleToday Examples.today (id Examples.yoga)
                  Examples.yoga_page)) !! 0%nat
        = Some item2
      ∧ completed item2 !! Examples.today = Some false.
Proof.
  split.
  - destruct (toggle_twice Examples.today (id Examples.walk)
                Examples.walk_page) as [Hrestore _].
    apply Hrestore.
    intros item Hin _. apply list_elem_of_singleton in Hin as ->.
    vm_compute. eauto.
  - destruct (toggle_twice Examples.today (id Examples.yoga)
                Examples.yoga_page) as (_ & _ & Hfalse & _).
    apply (Hfalse 0%nat Examples.yoga); reflexivity.
Defined.

(** C9: two toggles of an item with no entry for today leave the explicit
    entry [false] under today's key. *)
Theorem toggle_twice_leaves_false (today : string) (st : TrackerPage)
    (i : nat) (item : Item) :
  items st !! i = Some item →
  completed item !! today = None →
  ∃ item2,
    items (ToggleToday today (id item) (ToggleToday today (id item) st)) !! i
      = Some item2
    ∧ completed item2 !! today = Some false
    ∧ completed item2 ≠ completed item.
Proof.
  intros Hi Hnone. eexists. split.
  { rewrite lookup_toggle_twice, Hi. reflexivity. }
  rewrite toggle_callback_twice_completed, Hnone. simpl.
  split; [by rewrite lookup_insert_eq|].
  intros Heq. apply (f_equal (λ m, m !! today)) in Heq.
  rewrite lookup_insert_eq, Hnone in Heq. discriminate.
Qed.

Lemma toggle_twice_leaves_false_witness :
  ∃ item2,
    items (ToggleToday Examples.today (id Examples.yoga)
             (ToggleToday Examples.today (id Examples.yoga)
                Examples.two_page)) !! 1%nat
      = Some item2
    ∧ completed item2 !! Examples.today = Some false
    ∧ completed item2 ≠ completed Examples.yoga.
Proof.
  apply (toggle_twice_leaves_false Examples.today Examples.two_page 1
           Examples.yoga); reflexivity.
Defined.

(** ** Deleting *)

(** C10: [Delete] removes every item whose id is the argument, at every
    position, and keeps the other items, each as often as it occurred, in
    their relative order. *)
Theorem delete_removes_every_match (id0 : num) (st : TrackerPage) :
  items (Delete id0 st) = filter (λ item, id item ≠ id0) (items st)
  ∧ (id0 ∉ ids (items (Delete id0 st)))
  ∧ (∀ item,
       (item ∈ items (Delete id0 st)) ↔ (item ∈ items st ∧ id item ≠ id0))
  ∧ (items (Delete id0 st) `sublist_of` items st).
Proof.
  unfold Delete. rewrite items_deleteItem.
  split; [done|]. split; [|split].
  - rewrite elem_of_ids. intros (item & Hin & Hid).
    apply list_elem_of_filter in Hin as [Hne _]. done.
  - intros item. rewrite list_elem_of_filter. tauto.
  - apply sublist_filter_self.
Qed.

(** ** Renaming *)

Lemma lookup_Rename id0 newName st i :
  trim newName ≠ EmptyString →
  items (Rename id0 newName st) !! i
  = rename_callback (Some id0) newName <$> items st !! i.
Proof.
  intros Hname. apply truthy_string_true in Hname.
  by rewrite items_Rename, Hname, list_lookup_fmap.
Qed.

(** [Rename] is what the page does from the edit button of an item to the
    save button. *)
Lemma Rename_startEditing (item : Item) (newName : string) (st : TrackerPage) :
  Rename (id item) newName st
  = saveEdit (setEditValue newName (startEditing item st)).
Proof. done. Qed.

(** C7, as stated, fails on a sequence in which two items share the id
    (the one the two additions at one clock reading leave): [Rename] gives
    the new name to both, so whichever of the two is the item renamed, the
    other item is changed too. *)
Lemma rename_changes_every_match :
  items (Add Examples.host0 "Stretch" Examples.yoga_page)
  = [Examples.yoga; mkItem Examples.now0 "Stretch" ∅ Examples.iso0]
  ∧ Examples.now0 ∈ ids (items (Add Examples.host0 "Stretch"
                                   Examples.yoga_page))
  ∧ trim "Run" ≠ EmptyString
  ∧ items (Rename Examples.now0 "Run"
             (Add Examples.host0 "Stretch" Examples.yoga_page))
    = [mkItem Examples.now0 "Run" ∅ Examples.iso0;
       mkItem Examples.now0 "Run" ∅ Examples.iso0]
  ∧ items (Rename Examples.now0 "Run"
             (Add Examples.host0 "Stretch" Examples.yoga_page)) !! 0%nat
    ≠ items (Add Examples.host0 "Stretch" Examples.yoga_page) !! 0%nat
  ∧ items (Rename Examples.now0 "Run"
             (Add Examples.host0 "Stretch" Examples.yoga_page)) !! 1%nat
    ≠ items (Add Examples.host0 "Stretch" Examples.yoga_page) !! 1%nat.
Proof.
  split; [by vm_compute|]. split; [simpl; left|].
  split; [by vm_compute|]. split; [by vm_compute|].
  split; intros Heq; apply (f_equal (fmap name)) in Heq;
    vm_compute in Heq; discriminate.
Qed.

(** C7, amended: [Rename] with an id of the sequence and a name that is not
    empty after trimming keeps the length and the order, gives the trimmed
    name to every item with that id and leaves the id, completion mapping
    and creation time of every item as they were, and leaves every item
    with another id as it was; when the ids of the sequence are distinct,
    one item is renamed and every other position is unchanged. *)
Theorem rename_frame (id0 : num) (newName : string) (st : TrackerPage) :
  id0 ∈ ids (items st) →
  trim newName ≠ EmptyString →
  length (items (Rename id0 newName st)) = length (items st)
  ∧ (∃ i item,
       items st !! i = Some item ∧ id item = id0
       ∧ items (Rename id0 newName st) !! i
         = Some (mkItem (id item) (trim newName) (completed item)
                   (createdAt item)))
  ∧ (∀ i item, items st !! i = Some item →
       ∃ item',
         items (Rename id0 newName st) !! i = Some item'
         ∧ id item' = id item
         ∧ completed item' = completed item
         ∧ createdAt item' = createdAt item
         ∧ (id item = id0 → name item' = trim newName)
         ∧ (id item ≠ id0 → item' = item))
  ∧ (NoDup (ids (items st)) →
     ∀ i j item, items st !! i = Some item → id item = id0 → j ≠ i →
       items (Rename id0 newName st) !! j = items st !! j).
Proof.
  intros Hin Hname. repeat split.
  - rewrite items_Rename. apply truthy_string_true in Hname.
    by rewrite Hname, length_fmap.
  - apply elem_of_ids in Hin as (item & Hin & Hid).
    apply list_elem_of_lookup in Hin as [i Hi].
    exists i, item. repeat split; [done..|].
    rewrite lookup_Rename, Hi by done. simpl. unfold rename_callback.
    by rewrite decide_True by congruence.
  - intros i item Hi. eexists. split.
    { rewrite lookup_Rename, Hi by done. reflexivity. }
    unfold rename_callback. case_decide as Hd; simpl; repeat split; try done.
    + intros Hne. congruence.
    + intros Heq. congruence.
  - intros Hnodup i j item Hi Hid Hji.
    rewrite lookup_Rename by done.
    destruct (items st !! j) as [item'|] eqn:Hj; [simpl|done].
    rewrite rename_callback_other; [done|].
    intros [= Heq]. apply Hji.
    apply (NoDup_lookup (ids (items st)) j i id0); [done|..];
      unfold ids; rewrite list_lookup_fmap.
    + by rewrite Hj; simpl; rewrite Heq.
    + by rewrite Hi; simpl; rewrite Hid.
Qed.

Lemma rename_frame_witness :
  length (items (Rename (id Examples.yoga) "  Evening yoga " Examples.two_page))
  = length (items Examples.two_page)
  ∧ items (Rename (id Examples.yoga) "  Evening yoga " Examples.two_page)
    = [Examples.walk;
       mkItem Examples.now0 "Evening yoga" ∅ Examples.iso0].
Proof.
  split; [|by vm_compute].
  apply (rename_frame (id Examples.yoga) "  Evening yoga " Examples.two_page).
  - apply elem_of_ids. exists Examples.yoga. split; [|done].
    apply list_elem_of_In. simpl. tauto.
  - by vm_compute.
Defined.

(** ** No-ops *)

(** C6: the four operations are functions of the sequence and their
    arguments (as definitions of the embedding they return a sequence for
    every input), and [Add] and [Rename] with a name that is empty after
    trimming, and [Rename], [Delete] and [ToggleToday] with an id that is not
    in the sequence, leave the sequence as it is. *)
Theorem malformed_input_is_noop (h : Host) (today : string) (id0 : num)
    (name0 : string) (st : TrackerPage) :
  (trim name0 = EmptyString → items (Add h name0 st) = items st)
  ∧ (trim name0 = EmptyString → items (Rename id0 name0 st) = items st)
  ∧ (id0 ∉ ids (items st) → items (Rename id0 name0 st) = items st)
  ∧ (id0 ∉ ids (items st) → Delete id0 st = st)
  ∧ (id0 ∉ ids (items st) → ToggleToday today id0 st = st).
Proof.
  assert (Hother : id0 ∉ ids (items st) →
                   ∀ item, item ∈ items st → id item ≠ id0).
  { intros Hnot item Hin Hid. apply Hnot, elem_of_ids. eauto. }
  repeat split.
  - intros Hname%truthy_string_false. by rewrite items_Add, Hname.
  - intros Hname%truthy_string_false. by rewrite items_Rename, Hname.
  - intros Hnot. rewrite items_Rename. destruct (truthy_string _); [|done].
    apply fmap_id_on. intros item Hin. apply rename_callback_other.
    intros [= Hid]. by apply (Hother Hnot item).
  - intros Hnot. destruct st as [l n e v].
    unfold Delete, deleteItem, setItems. simpl in *. f_equal.
    apply filter_all. by apply Hother.
  - intros Hnot. destruct st as [l n e v].
    unfold ToggleToday, toggleComplete, setItems. simpl in *. f_equal.
    apply fmap_id_on. intros item Hin. apply toggle_callback_other.
    by apply Hother.
Qed.

Lemma fresh_id_example :
  number (inject_Z 42) ∉ ids (items Examples.two_page).
Proof.
  intros Hin. apply list_elem_of_In in Hin. simpl in Hin.
  destruct Hin as [Heq|[Heq|[]]];
    apply (f_equal (λ x : Qc, Qnum x)) in Heq; vm_compute in Heq;
    discriminate.
Defined.

Lemma malformed_input_is_noop_witness :
  items (Add Examples.host0 "  " Examples.two_page) = items Examples.two_page
  ∧ items (Rename (id Examples.yoga) "  " Examples.two_page)
    = items Examples.two_page
  ∧ items (Rename (number (inject_Z 42)) "Run" Examples.two_page)
    = items Examples.two_page
  ∧ Delete (number (inject_Z 42)) Examples.two_page = Examples.two_page
  ∧ ToggleToday Examples.today (number (inject_Z 42)) Examples.two_page
    = Examples.two_page.
Proof.
  destruct (malformed_input_is_noop Examples.host0 Examples.today
              (id Examples.yoga) "  " Examples.two_page)
    as (Hadd & Hrename & _).
  destruct (malformed_input_is_noop Examples.host0 Examples.today
              (number (inject_Z 42)) "Run" Examples.two_page)
    as (_ & _ & Hrename' & Hdelete & Htoggle).
  split; [|split; [|split; [|split]]].
  - apply Hadd. reflexivity.
  - apply Hrename. reflexivity.
  - apply Hrename', fresh_id_example.
  - apply Hdelete, fresh_id_example.
  - apply Htoggle, fresh_id_example.
Defined.

(** ** Adding *)

(** C2, as stated, fails on the uniqueness of the id: [addItem] takes
    [Date.now()] for the id and does not look at the ids in the category, so
    an addition made while the clock reads the id of an item already there
    (here the item added at the same reading) repeats that id. *)
Lemma add_repeats_clock_reading :
  Add Examples.host0 "Yoga" Examples.empty_page = Examples.yoga_page
  ∧ items (Add Examples.host0 "Stretch" Examples.yoga_page)
    = [Examples.yoga; mkItem Examples.now0 "Stretch" ∅ Examples.iso0]
  ∧ ¬ NoDup (ids (items (Add Examples.host0 "Stretch" Examples.yoga_page))).
Proof.
  split; [by vm_compute|]. split; [by vm_compute|].
  intros Hnodup. apply NoDup_cons_1_1 in Hnodup.
  apply Hnodup. simpl. left.
Qed.

(** C2, amended: [Add] with a name that is not empty after trimming appends
    one item at the end, named by the trimmed name, with an empty completion
    mapping and with the clock reading [Date.now()] for id; the items before
    it are untouched; the new id is unique within the category exactly when
    no item of the category already has that clock reading for id. *)
Theorem add_appends (h : Host) (name0 : string) (st : TrackerPage) :
  trim name0 ≠ EmptyString →
  items (Add h name0 st)
  = items st ++ [mkItem (Date_now h) (trim name0) ∅ (toISOString h)]
  ∧ length (items (Add h name0 st)) = S (length (items st))
  ∧ (∀ i item, items st !! i = Some item →
       items (Add h name0 st) !! i = Some item)
  ∧ ((∀ i, ids (items (Add h name0 st)) !! i = Some (Date_now h) →
           i = length (items st))
     ↔ Date_now h ∉ ids (items st))
  ∧ (NoDup (ids (items st)) →
     (NoDup (ids (items (Add h name0 st))) ↔ Date_now h ∉ ids (items st))).
Proof.
  intros Hname%truthy_string_true. rewrite items_Add, Hname.
  split; [done|]. split; [|split; [|split]].
  - rewrite length_app. simpl. lia.
  - intros i item Hi. by apply lookup_app_l_Some.
  - unfold ids. rewrite fmap_app. simpl. split.
    + intros Hlast Hin. apply list_elem_of_lookup in Hin as [i Hi].
      pose proof (lookup_lt_Some _ _ _ Hi) as Hlt.
      rewrite length_fmap in Hlt.
      specialize (Hlast i (lookup_app_l_Some _ _ _ _ Hi)). lia.
    + intros Hnotin i Hi. apply lookup_app_Some in Hi as [Hi|[Hge Hi]].
      * exfalso. apply Hnotin. apply list_elem_of_lookup. eauto.
      * rewrite length_fmap in Hge, Hi.
        destruct (i - length (items st))%nat eqn:Hsub; [lia|done].
  - intros Hnodup. unfold ids. rewrite fmap_app. simpl.
    rewrite NoDup_app. split.
    + intros (_ & Hdisj & _) Hin. apply (Hdisj _ Hin). left.
    + intros Hnotin. split; [done|]. split.
      * intros x Hx Hx'. apply list_elem_of_singleton in Hx' as ->. done.
      * apply NoDup_singleton.
Qed.

Lemma add_appends_witness :
  items (Add Examples.host0 " Yoga " Examples.walk_page)
  = [Examples.walk; Examples.yoga]
  ∧ length (items (Add Examples.host0 " Yoga " Examples.walk_page)) = 2%nat.
Proof.
  split.
  - transitivity
      (items Examples.walk_page
       ++ [mkItem (Date_now Examples.host0) (trim " Yoga ") ∅
             (toISOString Examples.host0)]); [|by vm_compute].
    by apply (add_appends Examples.host0 " Yoga " Examples.walk_page).
  - by apply (add_appends Examples.host0 " Yoga " Examples.walk_page).
Defined.

(** ** Seeding the defaults *)

(** The id [addDefaultItems] gives to the item at index [i]. *)
Lemma ids_default_items host names :
  ids (imap (default_item host) names)
  = (λ i, num_add (Date_now (host i)) (Math_random (host i)))
      <$> seq 0 (length names).
Proof.
  unfold ids. rewrite fmap_imap. rewrite <- imap_seq_0.
  by apply imap_ext.
Qed.

(** C8, as stated, fails on the distinctness of the ids: the two callbacks
    of one seeding read the same millisecond and draw two different random
    numbers, [0.5] and [0.5 + 2^-20]; both sums round to the same number,
    so the two new items have the same id. *)
Lemma bulk_seed_repeats_id :
  Math_random (Examples.same_instant 0) ≠ Math_random (Examples.same_instant 1)
  ∧ items (BulkSeed Examples.same_instant Examples.study_names
             Examples.empty_page)
    = [mkItem (number (Qmake 3400000000001 2)) "Read for 30 minutes" ∅
         Examples.iso0;
       mkItem (number (Qmake 3400000000001 2)) "Review notes" ∅
         Examples.iso0]
  ∧ ¬ NoDup (ids (items (BulkSeed Examples.same_instant Examples.study_names
                           Examples.empty_page))).
Proof.
  split; [|split].
  - intros Heq. apply (f_equal (λ x : Qc, Qnum x)) in Heq.
    vm_compute in Heq. discriminate.
  - by vm_compute.
  - intros Hnodup. apply NoDup_cons_1_1 in Hnodup.
    apply Hnodup. vm_compute. left.
Qed.

(** C8, amended: [BulkSeed] appends one item per name, in the order of the
    names, each with the name as given, an empty completion mapping and the
    id [Date.now() + Math.random()] as read by its callback, and leaves the
    items before them untouched; the ids of the result are pairwise distinct
    exactly when the ids already there and these sums are.  On an empty
    category the two names of the study page give exactly two items in that
    order. *)
Theorem bulk_seed_appends (host : nat → Host) (names : list string)
    (st : TrackerPage) :
  length (items (BulkSeed host names st))
  = (length (items st) + length names)%nat
  ∧ (∀ i item, items st !! i = Some item →
       items (BulkSeed host names st) !! i = Some item)
  ∧ (∀ i name0, names !! i = Some name0 →
       items (BulkSeed host names st) !! (length (items st) + i)%nat
       = Some (mkItem (num_add (Date_now (host i)) (Math_random (host i)))
                 name0 ∅ (toISOString (host i))))
  ∧ (NoDup (ids (items (BulkSeed host names st)))
     ↔ NoDup (ids (items st)
              ++ ((λ i, num_add (Date_now (host i)) (Math_random (host i)))
                    <$> seq 0 (length names))))
  ∧ (items st = [] →
     items (BulkSeed host Examples.study_names st)
     = [mkItem (num_add (Date_now (host 0%nat)) (Math_random (host 0%nat)))
          "Read for 30 minutes" ∅ (toISOString (host 0%nat));
        mkItem (num_add (Date_now (host 1%nat)) (Math_random (host 1%nat)))
          "Review notes" ∅ (toISOString (host 1%nat))]).
Proof.
  rewrite !items_BulkSeed. split; [|split; [|split; [|split]]].
  - by rewrite length_app, length_imap.
  - intros i item Hi. by apply lookup_app_l_Some.
  - intros i name0 Hi.
    rewrite lookup_app_r by lia.
    replace (length (items st) + i - length (items st))%nat with i by lia.
    by rewrite list_lookup_imap, Hi.
  - unfold ids at 1. rewrite fmap_app.
    fold (ids (items st)) (ids (imap (default_item host) names)).
    by rewrite ids_default_items.
  - intros ->. reflexivity.
Qed.

(** The amended C8 on the empty study page, with the draws [0.25] and
    [0.75] in one millisecond. *)
Lemma bulk_seed_appends_witness :
  items (BulkSeed Examples.spread_draws Examples.study_names
           Examples.empty_page)
  = [mkItem (number (Qmake 6800000000001 4)) "Read for 30 minutes" ∅
       Examples.iso0;
     mkItem (number (Qmake 6800000000003 4)) "Review notes" ∅
       Examples.iso0]
  ∧ NoDup (ids (items (BulkSeed Examples.spread_draws Examples.study_names
                         Examples.empty_page))).
Proof.
  destruct (bulk_seed_appends Examples.spread_draws Examples.study_names
              Examples.empty_page) as (_ & _ & _ & Hnodup & Hstudy).
  split.
  - rewrite Hstudy by reflexivity. by vm_compute.
  - apply Hnodup. simpl. apply NoDup_cons. split.
    + intros Hin. apply list_elem_of_singleton in Hin.
      apply (f_equal (λ x : Qc, Qnum x)) in Hin.
      vm_compute in Hin. discriminate.
    + apply NoDup_singleton.
Defined.

End TrackerFacts.

(** * Properties of export and import *)

Module SnapshotFacts.
Import Snapshot.

Lemma isArray_truthy (v : value) : isArray v = true → truthy v = true.
Proof. by destruct v. Qed.

Lemma store_setStoredValue (c c' : category) (v : value) (st : App) :
  store c' (setStoredValue c v st) = if decide (c' = c) then v else store c' st.
Proof. by destruct c, c'. Qed.

Lemma store_setLocalStorage (c : category) ls (st : App) :
  store c (setLocalStorage ls st) = store c st.
Proof. by destruct c. Qed.

Lemma property_export_data (iso : string) (st : App) (c : category) :
  property (export_data iso st) (category_key c) = Some (store c st).
Proof. by destruct c. Qed.

(** Unfolds the statements of a handler down to functions of the state. *)
Ltac run_js :=
  unfold Import, handleImport, onload, setValue, setItem, parse, try_catch,
    modify, throw, mbind, JS_bind, bind, ret.

Section WithPlatform.

Variable P : Platform.

(** [setValue] never throws: it sets the stored value, and the storage too
    when the write is accepted. *)
Lemma setValue_run (c : category) (v : value) (st : App) :
  ∃ st', setValue P c v st = (st', Normal tt)
         ∧ ∀ c', store c' st' = if decide (c' = c) then v else store c' st.
Proof.
  run_js. simpl. destruct (setItem_accepted P _ _ _); eexists; (split; [done|]);
    intros c'; by rewrite ?store_setLocalStorage, store_setStoredValue.
Qed.

(** One [if (data.key) setter (data.key);] on a document that is not
    [null]. *)
Lemma import_category_run (data : value) (c : category) (st : App) :
  data ≠ VNull →
  ∃ st', import_category P data c st = (st', Normal tt)
         ∧ ∀ c', store c' st'
                 = if decide (c' = c) then
                     match property data (category_key c) with
                     | Some v => if truthy v then v else store c st
                     | None => store c st
                     end
                   else store c' st.
Proof.
  intros Hnull.
  assert (Hget : get data (category_key c)
                 = ret (property data (category_key c))).
  { by destruct data. }
  unfold import_category. rewrite Hget.
  unfold mbind, JS_bind, bind, ret.
  destruct (property data (category_key c)) as [v|] eqn:Hprop.
  - destruct (truthy v) eqn:Htruthy.
    + destruct (setValue_run c v st) as (st' & Hrun & Hstore).
      exists st'. by rewrite Hrun.
    + exists st. split; [done|]. intros c'. by case_decide; subst.
  - exists st. split; [done|]. intros c'. by case_decide; subst.
Qed.

(** The six statements of the [try] block in sequence. *)
Lemma onload_run (text : string) (data : value) (st : App) :
  JSON_parse P text = Some data →
  data ≠ VNull →
  ∃ st', onload P text st = (st', Normal import_success)
         ∧ ∀ c, store c st'
                = match property data (category_key c) with
                  | Some v => if truthy v then v else store c st
                  | None => store c st
                  end.
Proof.
  intros Hparse Hnull.
  destruct (import_category_run data skincare st Hnull) as (s1 & E1 & H1).
  destruct (import_category_run data haircare s1 Hnull) as (s2 & E2 & H2).
  destruct (import_category_run data supplements s2 Hnull) as (s3 & E3 & H3).
  destruct (import_category_run data study s3 Hnull) as (s4 & E4 & H4).
  destruct (import_category_run data bodycare s4 Hnull) as (s5 & E5 & H5).
  destruct (import_category_run data exercise s5 Hnull) as (s6 & E6 & H6).
  exists s6. split.
  - unfold onload, try_catch, parse, mbind, JS_bind, bind. rewrite Hparse.
    unfold ret at 1. by rewrite E1, E2, E3, E4, E5, E6.
  - intros c. rewrite H6, ?H5, ?H4, ?H3, ?H2, ?H1.
    destruct c; simpl; rewrite ?H5, ?H4, ?H3, ?H2, ?H1; simpl; done.
Qed.

(** A document that parses to [null] makes the first property read throw:
    the error alert, and nothing written. *)
Lemma import_null_document (text : string) (st : App) :
  JSON_parse P text = Some VNull →
  Import P text st = (st, Some import_error).
Proof.
  intros Hparse. run_js. by rewrite Hparse.
Qed.

(** C3, amended: for every document [JSON.parse] returns, [Import]
    overwrites exactly the categories whose key holds a truthy value, with
    that value as parsed: every sequence, and also a non-empty string, a
    non-zero number, [true] or an object; a category whose key is absent or
    holds [null], [false], [0] or the empty string is left as it was.  The
    alert is the success message, except for the document [null], which has
    no keys and gives the error message. *)
Theorem import_overwrites_truthy (text : string) (data : value) (st : App) :
  JSON_parse P text = Some data →
  (∀ c,
      (∀ elements, property data (category_key c) = Some (VArr elements) →
         store c (fst (Import P text st)) = VArr elements)
      ∧ (∀ v, property data (category_key c) = Some v → truthy v = true →
           store c (fst (Import P text st)) = v)
      ∧ (∀ v, property data (category_key c) = Some v → truthy v = false →
           store c (fst (Import P text st)) = store c st)
      ∧ (property data (category_key c) = None →
         store c (fst (Import P text st)) = store c st))
  ∧ (data ≠ VNull → snd (Import P text st) = Some import_success)
  ∧ (data = VNull → Import P text st = (st, Some import_error)).
Proof.
  intros Hparse.
  assert (data = VNull ∨ data ≠ VNull) as [->|Hnull]
    by (destruct data; (by left) || (by right)).
  - rewrite (import_null_document text st Hparse). simpl.
    split; [|done]. intros c. repeat split; try done; intros; discriminate.
  - destruct (onload_run text data st Hparse Hnull) as (st' & Hrun & Hstore).
    unfold Import, handleImport. rewrite Hrun. simpl.
    split; [|done]. intros c. rewrite Hstore. repeat split.
    + by intros elements ->.
    + by intros v -> ->.
    + by intros v -> ->.
    + by intros ->.
Qed.

(** C4: a text that [JSON.parse] rejects gives the error alert and leaves
    the whole state, the six stores and the storage, as it was. *)
Theorem import_parse_failure (text : string) (st : App) :
  JSON_parse P text = None →
  Import P text st = (st, Some import_error).
Proof.
  intros Hparse. run_js. by rewrite Hparse.
Qed.

(** C5: [Export] writes the document of the six stores and the export
    time with the host's [JSON.stringify]; when the host's [JSON.parse] reads
    that text back as the document, importing the file after the export
    gives back the six stores, whatever they hold, with the success alert;
    imported into any other state it gives each store that is a sequence (or
    any truthy value) its exported contents; [exportDate], the time of the
    export, is carried by the document and read by no store. *)
Theorem export_import_roundtrip (iso : string) (st : App) :
  let doc :=
    VObj [("skincare", skincareItems st);
          ("haircare", haircareItems st);
          ("supplements", supplementsItems st);
          ("study", studyItems st);
          ("bodycare", bodycareItems st);
          ("exercise", exerciseItems st);
          ("exportDate", VStr iso)] in
  JSON_parse P (JSON_stringify P doc 2) = Some doc →
  handleExport P iso st
  = ("daily-glow-tracker-backup.json", JSON_stringify P doc 2)
  ∧ (∀ c, store c (fst (Import P (Export P iso st) st)) = store c st)
  ∧ snd (Import P (Export P iso st) st) = Some import_success
  ∧ (∀ st' c, truthy (store c st) = true →
       store c (fst (Import P (Export P iso st) st')) = store c st)
  ∧ (∀ st', (∀ c, isArray (store c st) = true) →
       ∀ c, store c (fst (Import P (Export P iso st) st')) = store c st)
  ∧ property doc "exportDate" = Some (VStr iso)
  ∧ (∀ iso' key, key ≠ "exportDate" →
       property (export_data iso' st) key = property doc key).
Proof.
  intros doc Hparse.
  assert (Hexport : Export P iso st = JSON_stringify P doc 2) by done.
  assert (Hrun : ∀ st',
    snd (Import P (Export P iso st) st') = Some import_success
    ∧ ∀ c, store c (fst (Import P (Export P iso st) st'))
           = if truthy (store c st) then store c st else store c st').
  { intros st'. rewrite Hexport.
    destruct (onload_run (JSON_stringify P doc 2) doc st' Hparse)
      as (st'' & Hrun & Hstore); [done|].
    unfold Import, handleImport. rewrite Hrun. simpl. split; [done|].
    intros c. rewrite Hstore.
    change doc with (export_data iso st).
    by rewrite property_export_data. }
  split; [done|]. split; [|split; [|split; [|split; [|split]]]].
  - intros c. destruct (Hrun st) as [_ ->]. by destruct (truthy _).
  - by destruct (Hrun st) as [-> _].
  - intros st' c Htruthy. destruct (Hrun st') as [_ ->]. by rewrite Htruthy.
  - intros st' Harrays c. destruct (Hrun st') as [_ ->].
    by rewrite (isArray_truthy _ (Harrays c)).
  - done.
  - intros iso' key Hkey. simpl. repeat case_decide; congruence.
Qed.

End WithPlatform.

(** ** The handlers run on the reference platform *)

(** C3, as stated, fails: the key [skincare] of the document holds the
    string ["x"], which is not a sequence, and [Import] stores it in place
    of the sequence the category held. *)
Lemma import_overwrites_with_string :
  JSON_parse RefJSON.platform Examples.string_text
  = Some (VObj [("skincare", VStr "x")])
  ∧ isArray (VStr "x") = false
  ∧ store skincare
      (fst (Import RefJSON.platform Examples.string_text Examples.sample_app))
    = VStr "x"
  ∧ store skincare
      (fst (Import RefJSON.platform Examples.string_text Examples.sample_app))
    ≠ store skincare Examples.sample_app.
Proof.
  split; [by vm_compute|]. split; [done|].
  assert (Hstore : store skincare
                     (fst (Import RefJSON.platform Examples.string_text
                             Examples.sample_app)) = VStr "x")
    by (by vm_compute).
  split; [done|]. rewrite Hstore. discriminate.
Qed.

(** The amended C3 on the document
    [{"skincare": [], "study": 0, "exercise": null}]: the empty sequence
    replaces the skincare items, the falsy values and the absent keys
    change nothing. *)
Lemma import_overwrites_truthy_witness :
  snd (Import RefJSON.platform Examples.partial_text Examples.sample_app)
  = Some import_success
  ∧ store skincare
      (fst (Import RefJSON.platform Examples.partial_text Examples.sample_app))
    = VArr []
  ∧ store study
      (fst (Import RefJSON.platform Examples.partial_text Examples.sample_app))
    = store study Examples.sample_app
  ∧ store haircare
      (fst (Import RefJSON.platform Examples.partial_text Examples.sample_app))
    = store haircare Examples.sample_app.
Proof.
  assert (Hparse : JSON_parse RefJSON.platform Examples.partial_text
                   = Some Examples.partial_data) by (by vm_compute).
  destruct (import_overwrites_truthy RefJSON.platform Examples.partial_text
              Examples.partial_data Examples.sample_app Hparse)
    as (Hstores & Halert & _).
  split; [by apply Halert|]. split; [|split].
  - by apply (Hstores skincare).
  - apply (Hstores study) with (v := VNum (number (Qmake 0 1))); by vm_compute.
  - by apply (Hstores haircare).
Defined.

Lemma import_parse_failure_witness :
  Import RefJSON.platform Examples.bad_text Examples.sample_app
  = (Examples.sample_app, Some import_error).
Proof.
  apply (import_parse_failure RefJSON.platform Examples.bad_text
           Examples.sample_app).
  by vm_compute.
Defined.

(** The round trip of [sample_app] through the reference codec, imported
    into the empty state. *)
Lemma export_import_roundtrip_witness :
  let st' :=
    fst (Import RefJSON.platform
           (Export RefJSON.platform Examples.iso0 Examples.sample_app)
           Examples.empty_app) in
  skincareItems st' = skincareItems Examples.sample_app
  ∧ haircareItems st' = haircareItems Examples.sample_app
  ∧ supplementsItems st' = supplementsItems Examples.sample_app
  ∧ studyItems st' = studyItems Examples.sample_app
  ∧ bodycareItems st' = bodycareItems Examples.sample_app
  ∧ exerciseItems st' = exerciseItems Examples.sample_app.
Proof.
  assert (Hparse :
    JSON_parse RefJSON.platform
      (JSON_stringify RefJSON.platform
         (VObj [("skincare", skincareItems Examples.sample_app);
                ("haircare", haircareItems Examples.sample_app);
                ("supplements", supplementsItems Examples.sample_app);
                ("study", studyItems Examples.sample_app);
                ("bodycare", bodycareItems Examples.sample_app);
                ("exercise", exerciseItems Examples.sample_app);
                ("exportDate", VStr Examples.iso0)]) 2)
    = Some
        (VObj [("skincare", skincareItems Examples.sample_app);
               ("haircare", haircareItems Examples.sample_app);
               ("supplements", supplementsItems Examples.sample_app);
               ("study", studyItems Examples.sample_app);
               ("bodycare", bodycareItems Examples.sample_app);
               ("exercise", exerciseItems Examples.sample_app);
               ("exportDate", VStr Examples.iso0)]))
    by (by vm_compute).
  destruct (export_import_roundtrip RefJSON.platform Examples.iso0
              Examples.sample_app Hparse)
    as (_ & _ & _ & _ & Harrays & _ & _).
  assert (Hall : ∀ c, isArray (store c Examples.sample_app) = true)
    by (intros c; by destruct c).
  pose proof (Harrays Examples.empty_app Hall) as Hstores.
  intros st'. subst st'.
  split; [apply (Hstores skincare)|].
  split; [apply (Hstores haircare)|].
  split; [apply (Hstores supplements)|].
  split; [apply (Hstores study)|].
  split; [apply (Hstores bodycare)|apply (Hstores exercise)].
Defined.

End SnapshotFacts.

(** * Further properties of the tracker component *)

Module TrackerMore.
Import Tracker Page TrackerFacts.

Lemma TrackerPage_eq (a b : TrackerPage) :
  items a = items b → newItem a = newItem b →
  editingItem a = editingItem b → editValue a = editValue b → a = b.
Proof. destruct a, b; simpl; congruence. Qed.

Lemma rename_callback_id editing value item :
  id (rename_callback editing value item) = id item.
Proof. unfold rename_callback. by case_decide. Qed.

Lemma rename_callback_completed editing value item :
  completed (rename_callback editing value item) = completed item.
Proof. unfold rename_callback. by case_decide. Qed.

Lemma ids_fmap_preserving (f : Item → Item) (l : list Item) :
  (∀ item, id (f item) = id item) → ids (f <$> l) = ids l.
Proof.
  intros Hf. unfold ids. rewrite <- list_fmap_compose.
  apply list_fmap_ext. intros i item _. apply Hf.
Qed.

Lemma filter_fmap_preserving {A} (P : A → Prop) `{∀ x, Decision (P x)}
    (f : A → A) (l : list A) :
  (∀ x, P (f x) ↔ P x) → filter P (f <$> l) = f <$> filter P l.
Proof.
  intros Hf. induction l as [|x l IH]; [done|]. rewrite fmap_cons.
  destruct (decide (P x)) as [HP|HP].
  - rewrite (filter_cons_True P (f x)) by (by apply Hf).
    rewrite (filter_cons_True P x) by done.
    by rewrite fmap_cons, IH.
  - rewrite (filter_cons_False P (f x)) by (by rewrite Hf).
    by rewrite (filter_cons_False P x).
Qed.

(** ** Identity and history *)

(** [ToggleToday] and [Rename] never change an id nor the order of the ids,
    and [Delete] keeps distinct ids distinct. *)
Theorem ids_are_stable (today : string) (id0 : num) (newName : string)
    (st : TrackerPage) :
  ids (items (ToggleToday today id0 st)) = ids (items st)
  ∧ ids (items (Rename id0 newName st)) = ids (items st)
  ∧ (ids (items (Delete id0 st)) `sublist_of` ids (items st))
  ∧ (NoDup (ids (items st)) → NoDup (ids (items (Delete id0 st)))).
Proof.
  assert (Hsub : ids (items (Delete id0 st)) `sublist_of` ids (items st)).
  { unfold Delete. rewrite items_deleteItem. unfold ids.
    apply fmap_sublist, sublist_filter_self. }
  split; [|split; [|split]].
  - unfold ToggleToday. rewrite items_toggleComplete.
    apply ids_fmap_preserving. intros item. apply toggle_callback_id.
  - rewrite items_Rename. destruct (truthy_string _); [|done].
    apply ids_fmap_preserving. intros item. apply rename_callback_id.
  - done.
  - intros Hnodup. by apply (sublist_NoDup _ _ Hnodup).
Qed.

Lemma ids_are_stable_witness :
  NoDup (ids (items (Delete (id Examples.yoga) Examples.two_page))).
Proof.
  apply (ids_are_stable Examples.today (id Examples.yoga) "x"
           Examples.two_page).
  simpl. apply NoDup_cons. split.
  - intros Hin. apply list_elem_of_singleton in Hin.
    apply (f_equal (λ x : Qc, Qnum x)) in Hin.
    vm_compute in Hin. discriminate.
  - apply NoDup_singleton.
Defined.

(** No operation forgets a day: the days recorded for an item after
    [ToggleToday] are the days recorded before together with today when the
    id matches, and the same days otherwise; [Rename] leaves the completion
    mapping of every item as it was. *)
Theorem history_is_kept (today : string) (id0 : num) (newName : string)
    (st : TrackerPage) (i : nat) (item : Item) :
  items st !! i = Some item →
  (∃ item1,
     items (ToggleToday today id0 st) !! i = Some item1
     ∧ dom (completed item1)
       = (if decide (id item = id0)
          then {[ today ]} ∪ dom (completed item)
          else dom (completed item)))
  ∧ (∃ item2,
       items (Rename id0 newName st) !! i = Some item2
       ∧ completed item2 = completed item).
Proof.
  intros Hi. split.
  - eexists. split.
    { unfold ToggleToday.
      rewrite items_toggleComplete, list_lookup_fmap, Hi. reflexivity. }
    unfold toggle_callback. case_decide; [simpl|done].
    apply dom_insert_L.
  - rewrite items_Rename. destruct (truthy_string _).
    + eexists. split; [by rewrite list_lookup_fmap, Hi|].
      apply rename_callback_completed.
    + by exists item.
Qed.

Lemma history_is_kept_witness :
  ∃ item1,
    items (ToggleToday "Wed Nov 15 2023" (id Examples.walk) Examples.two_page)
      !! 0%nat = Some item1
    ∧ dom (completed item1) = {[ "Wed Nov 15 2023"; Examples.today ]}.
Proof.
  destruct (history_is_kept "Wed Nov 15 2023" (id Examples.walk) "x"
              Examples.two_page 0 Examples.walk eq_refl)
    as [(item1 & Hlookup & Hdom) _].
  exists item1. split; [done|]. rewrite Hdom.
  rewrite decide_True by done.
  change (completed Examples.walk)
    with ({[ Examples.today := true ]} : gmap string bool).
  by rewrite dom_singleton_L.
Defined.

(** ** The checkbox *)

(** One [ToggleToday] flips the checkbox of today on the rows with the id
    and on no other row, and changes the checkbox of no other day. *)
Theorem toggle_flips_checkbox (today : string) (id0 : num)
    (st : TrackerPage) (i : nat) (item : Item) :
  items st !! i = Some item →
  ∃ item1,
    items (ToggleToday today id0 st) !! i = Some item1
    ∧ checked today item1
      = (if decide (id item = id0) then negb (checked today item)
         else checked today item)
    ∧ (∀ day, day ≠ today → checked day item1 = checked day item).
Proof.
  intros Hi. eexists. split.
  { unfold ToggleToday.
    rewrite items_toggleComplete, list_lookup_fmap, Hi. reflexivity. }
  unfold checked. split.
  - case_decide as Hid.
    + subst id0. by rewrite toggle_callback_today.
    + by rewrite toggle_callback_other.
  - intros day Hday. by rewrite toggle_callback_frame.
Qed.

Lemma toggle_flips_checkbox_witness :
  ∃ item1,
    items (ToggleToday Examples.today (id Examples.walk) Examples.two_page)
      !! 0%nat = Some item1
    ∧ checked Examples.today item1 = false.
Proof.
  destruct (toggle_flips_checkbox Examples.today (id Examples.walk)
              Examples.two_page 0 Examples.walk eq_refl)
    as (item1 & Hlookup & Hchecked & _).
  exists item1. split; [done|]. rewrite Hchecked.
  by rewrite decide_True.
Defined.

(** After the first [ToggleToday], toggling is an involution on the whole
    state: three toggles are one toggle. *)
Theorem toggle_three_times (today : string) (id0 : num) (st : TrackerPage) :
  ToggleToday today id0 (ToggleToday today id0 (ToggleToday today id0 st))
  = ToggleToday today id0 st.
Proof.
  unfold ToggleToday, toggleComplete, setItems. simpl. f_equal.
  rewrite <- !list_fmap_compose. apply list_fmap_ext. intros i item _. simpl.
  destruct (decide (id item = id0)) as [<-|Hne].
  - apply toggle_callback_twice. rewrite toggle_callback_today. eauto.
  - by rewrite !(toggle_callback_other _ _ item).
Qed.

(** ** Names *)

(** No operation stores an empty name: if every name of the sequence is
    non-empty, it is so after [Add], [Rename], [Delete] and [ToggleToday],
    whatever their arguments, and after [BulkSeed] when the names given are
    non-empty ([addDefaultItems] stores them unchecked). *)
Theorem names_stay_nonempty (h : Host) (host : nat → Host) (today : string)
    (id0 : num) (name0 : string) (names : list string) (st : TrackerPage) :
  Forall (λ item, name item ≠ EmptyString) (items st) →
  Forall (λ item, name item ≠ EmptyString) (items (Add h name0 st))
  ∧ Forall (λ item, name item ≠ EmptyString) (items (Rename id0 name0 st))
  ∧ Forall (λ item, name item ≠ EmptyString) (items (Delete id0 st))
  ∧ Forall (λ item, name item ≠ EmptyString)
      (items (ToggleToday today id0 st))
  ∧ (Forall (λ s, s ≠ EmptyString) names →
     Forall (λ item, name item ≠ EmptyString)
       (items (BulkSeed host names st))).
Proof.
  intros Hst. split; [|split; [|split; [|split]]].
  - rewrite items_Add. destruct (truthy_string _) eqn:Hname; [|done].
    apply Forall_app. split; [done|]. apply Forall_singleton. simpl.
    by apply truthy_string_true.
  - rewrite items_Rename. destruct (truthy_string _) eqn:Hname; [|done].
    apply Forall_fmap. eapply Forall_impl; [exact Hst|].
    intros item Hitem. simpl. unfold rename_callback.
    case_decide; [simpl|done]. by apply truthy_string_true.
  - unfold Delete. rewrite items_deleteItem.
    rewrite Forall_forall in Hst. apply Forall_forall. intros item Hin.
    apply list_elem_of_filter in Hin as [_ Hin]. by apply Hst.
  - unfold ToggleToday. rewrite items_toggleComplete.
    apply Forall_fmap. eapply Forall_impl; [exact Hst|].
    intros item Hitem. simpl. by rewrite toggle_callback_name.
  - intros Hnames. rewrite items_BulkSeed.
    apply Forall_app. split; [done|].
    apply Forall_lookup. intros i item Hi.
    rewrite list_lookup_imap in Hi.
    destruct (names !! i) as [s|] eqn:Hs; [|done].
    injection Hi as <-. simpl.
    rewrite Forall_lookup in Hnames. by apply (Hnames i).
Qed.

Lemma names_stay_nonempty_witness :
  Forall (λ item, name item ≠ EmptyString)
    (items (Rename (id Examples.yoga) " Evening yoga " Examples.two_page)).
Proof.
  apply (names_stay_nonempty Examples.host0 Examples.spread_draws
           Examples.today (id Examples.yoga) " Evening yoga "
           Examples.study_names Examples.two_page).
  repeat constructor; discriminate.
Defined.

(** ** Compositions *)

(** [Add] then [ToggleToday] on the id just given: the new item, last of
    the sequence, carries exactly one completion entry, today's, with value
    [true]. *)
Theorem add_then_toggle (h : Host) (today name0 : string)
    (st : TrackerPage) :
  trim name0 ≠ EmptyString →
  last (items (ToggleToday today (Date_now h) (Add h name0 st)))
  = Some (mkItem (Date_now h) (trim name0) {[ today := true ]}
            (toISOString h)).
Proof.
  intros Hname%truthy_string_true.
  unfold ToggleToday. rewrite items_toggleComplete, items_Add, Hname.
  rewrite fmap_last, last_snoc. simpl. f_equal.
  unfold toggle_callback. simpl. rewrite decide_True by done.
  by rewrite lookup_empty, insert_empty.
Qed.

Lemma add_then_toggle_witness :
  last (items (ToggleToday Examples.today (Date_now Examples.host0)
                 (Add Examples.host0 " Yoga " Examples.walk_page)))
  = Some (mkItem Examples.now0 "Yoga" {[ Examples.today := true ]}
            Examples.iso0).
Proof.
  rewrite (add_then_toggle Examples.host0 Examples.today " Yoga "
             Examples.walk_page); [done|by vm_compute].
Defined.

(** [Delete] of the id just given by [Add] removes the new item together
    with every older item of that id; when the id was fresh, it gives back
    the sequence as it was before the [Add]. *)
Theorem add_then_delete (h : Host) (name0 : string) (st : TrackerPage) :
  items (Delete (Date_now h) (Add h name0 st))
  = items (Delete (Date_now h) st)
  ∧ (Date_now h ∉ ids (items st) →
     items (Delete (Date_now h) (Add h name0 st)) = items st).
Proof.
  assert (Heq : items (Delete (Date_now h) (Add h name0 st))
                = items (Delete (Date_now h) st)).
  { unfold Delete. rewrite !items_deleteItem, items_Add.
    destruct (truthy_string _); [|done].
    rewrite filter_app, filter_cons_False, filter_nil by (simpl; tauto).
    by rewrite app_nil_r. }
  split; [done|]. intros Hfresh. rewrite Heq.
  unfold Delete. rewrite items_deleteItem. apply filter_all.
  intros item Hin Hid. apply Hfresh, elem_of_ids. eauto.
Qed.

Lemma add_then_delete_witness :
  items (Delete (Date_now Examples.host0)
           (Add Examples.host0 "Yoga" Examples.walk_page))
  = items Examples.walk_page.
Proof.
  apply (add_then_delete Examples.host0 "Yoga" Examples.walk_page).
  intros Hin. apply list_elem_of_singleton in Hin.
  apply (f_equal (λ x : Qc, Qnum x)) in Hin.
  vm_compute in Hin. discriminate.
Defined.

(** [Delete] is idempotent, two deletions commute, and a deletion commutes
    with a toggle and with a rename. *)
Theorem delete_commutes (today : string) (a b : num) (newName : string)
    (st : TrackerPage) :
  Delete a (Delete a st) = Delete a st
  ∧ Delete a (Delete b st) = Delete b (Delete a st)
  ∧ Delete a (ToggleToday today b st) = ToggleToday today b (Delete a st)
  ∧ items (Delete a (Rename b newName st))
    = items (Rename b newName (Delete a st)).
Proof.
  split; [|split; [|split]].
  - apply TrackerPage_eq; try done. unfold Delete.
    rewrite !items_deleteItem, list_filter_filter.
    apply list_filter_iff. tauto.
  - apply TrackerPage_eq; try done. unfold Delete.
    rewrite !items_deleteItem, !list_filter_filter.
    apply list_filter_iff. tauto.
  - apply TrackerPage_eq; try done. unfold Delete, ToggleToday.
    rewrite items_deleteItem, !items_toggleComplete, items_deleteItem.
    apply filter_fmap_preserving. intros item.
    by rewrite toggle_callback_id.
  - unfold Delete. rewrite items_deleteItem, !items_Rename, items_deleteItem.
    destruct (truthy_string _); [|done].
    apply filter_fmap_preserving. intros item.
    by rewrite rename_callback_id.
Qed.

Lemma toggle_callback_commute d1 a d2 b item :
  toggle_callback d1 a (toggle_callback d2 b item)
  = toggle_callback d2 b (toggle_callback d1 a item).
Proof.
  destruct (decide (id item = a)) as [Ha|Ha];
    destruct (decide (id item = b)) as [Hb|Hb].
  - subst a b. destruct (decide (d1 = d2)) as [->|Hd]; [done|].
    rewrite (toggle_callback_same d2 item), (toggle_callback_same d1 item).
    unfold toggle_callback. simpl. rewrite !decide_True by done. simpl.
    rewrite !lookup_insert_ne by done.
    f_equal. by apply insert_insert_ne.
  - rewrite (toggle_callback_other d2 b item) by done.
    apply symmetry, toggle_callback_other. by rewrite toggle_callback_id.
  - rewrite (toggle_callback_other d1 a item) by done.
    apply toggle_callback_other. by rewrite toggle_callback_id.
  - by rewrite !(toggle_callback_other _ _ item).
Qed.

(** Two toggles commute, whatever their ids and their days. *)
Theorem toggles_commute (d1 d2 : string) (a b : num) (st : TrackerPage) :
  ToggleToday d1 a (ToggleToday d2 b st)
  = ToggleToday d2 b (ToggleToday d1 a st).
Proof.
  apply TrackerPage_eq; try done. unfold ToggleToday.
  rewrite !items_toggleComplete, <- !list_fmap_compose.
  apply list_fmap_ext. intros i item _. apply toggle_callback_commute.
Qed.

(** Of two renames of the same id in a row the second wins, when its name
    is not empty after trimming; renaming twice to the same name is
    renaming once. *)
Theorem rename_last_wins (id0 : num) (n1 n2 : string) (st : TrackerPage) :
  trim n2 ≠ EmptyString →
  items (Rename id0 n2 (Rename id0 n1 st)) = items (Rename id0 n2 st).
Proof.
  intros Hn2%truthy_string_true.
  rewrite (items_Rename id0 n2), Hn2, (items_Rename id0 n1), items_Rename, Hn2.
  destruct (truthy_string (trim n1)); [|done].
  rewrite <- list_fmap_compose. apply list_fmap_ext. intros i item _. simpl.
  unfold rename_callback. repeat (case_decide; simpl in *); congruence.
Qed.

Lemma rename_last_wins_witness :
  items (Rename (id Examples.yoga) "Stretch"
           (Rename (id Examples.yoga) "Run" Examples.two_page))
  = items (Rename (id Examples.yoga) "Stretch" Examples.two_page).
Proof.
  apply (rename_last_wins (id Examples.yoga) "Run" "Stretch"
           Examples.two_page).
  by vm_compute.
Defined.

(** [Delete] shortens the sequence by the number of items that carry the
    id: by at least one when the id is in the sequence. *)
Theorem delete_length (id0 : num) (st : TrackerPage) :
  (length (items (Delete id0 st))
   + length (filter (λ item, id item = id0) (items st)))%nat
  = length (items st)
  ∧ (id0 ∈ ids (items st) →
     length (items (Delete id0 st)) < length (items st)).
Proof.
  unfold Delete. rewrite items_deleteItem. split.
  - induction (items st) as [|item l IH]; [done|].
    destruct (decide (id item = id0)) as [Hid|Hid].
    + rewrite filter_cons_False by tauto.
      rewrite (filter_cons_True (λ item, id item = id0)) by done.
      simpl. lia.
    + rewrite filter_cons_True by done.
      rewrite (filter_cons_False (λ item, id item = id0)) by done.
      simpl. lia.
  - intros Hin. apply elem_of_ids in Hin as (item & Hin & Hid).
    apply (length_filter_lt _ _ item); [done|]. tauto.
Qed.

Lemma delete_length_witness :
  length (items (Delete (id Examples.yoga) Examples.two_page))
  < length (items Examples.two_page).
Proof.
  apply (delete_length (id Examples.yoga) Examples.two_page).
  apply elem_of_ids. exists Examples.yoga. split; [|done].
  apply list_elem_of_In. simpl. tauto.
Defined.

End TrackerMore.

(** * Properties of the rendered page *)

Module PageFacts.
Import Tracker Page TrackerFacts TrackerMore.

Lemma rowEditing_true st item :
  rowEditing st item = true ↔ editingItem st = Some (id item).
Proof. unfold rowEditing. by rewrite bool_decide_eq_true. Qed.

Lemma rowEditing_false st item :
  rowEditing st item = false ↔ editingItem st ≠ Some (id item).
Proof. unfold rowEditing. by rewrite bool_decide_eq_false. Qed.

Lemma elem_of_ids_app x l1 l2 : x ∈ ids l1 → x ∈ ids (l1 ++ l2).
Proof. unfold ids. rewrite fmap_app, elem_of_app. tauto. Qed.

(** One event keeps the edit cells consistent with the rows. *)
Lemma dispatch_consistent defaultItems e st st' :
  dispatch defaultItems e st = Some st' →
  edit_box_consistent st → edit_box_consistent st'.
Proof.
  unfold edit_box_consistent.
  destruct e as [text|h|host|today row|row|row|row text|row|row]; simpl.
  - by intros [= <-].
  - intros [= <-]. unfold addItem.
    destruct (truthy_string _); [simpl|done].
    destruct (editingItem st); [|done]. apply elem_of_ids_app.
  - destruct (showAddDefaults _ _); [|done]. intros [= <-]. simpl.
    destruct (editingItem st); [|done]. apply elem_of_ids_app.
  - destruct (items st !! row) as [item|]; [|done]. intros [= <-]. simpl.
    destruct (editingItem st); [|done].
    by rewrite (ids_fmap_preserving _ _ (toggle_callback_id today (id item))).
  - destruct (items st !! row) as [item|] eqn:Hrow; [|done].
    destruct (rowEditing st item); [done|]. intros [= <-] _. simpl.
    apply elem_of_ids. exists item. split; [|done].
    by apply list_elem_of_lookup_2 in Hrow.
  - destruct (items st !! row) as [item|] eqn:Hrow; [|done].
    destruct (rowEditing st item) eqn:Hediting; [done|].
    apply rowEditing_false in Hediting. intros [= <-]. simpl.
    destruct (editingItem st) as [id0|]; [|done].
    rewrite !elem_of_ids. intros (item0 & Hin & Hid).
    exists item0. split; [|done]. apply list_elem_of_filter. split; [|done].
    congruence.
  - destruct (items st !! row) as [item|]; [|done].
    destruct (rowEditing st item) eqn:Hediting; [|done].
    apply rowEditing_true in Hediting. intros [= <-]. simpl.
    by rewrite Hediting.
  - destruct (items st !! row) as [item|]; [|done].
    destruct (rowEditing st item); [|done]. by intros [= <-].
  - destruct (items st !! row) as [item|]; [|done].
    destruct (rowEditing st item); [|done]. by intros [= <-].
Qed.

(** Through every session of events the page can dispatch, the edit cells
    stay consistent with the rows: an open edit box always belongs to an
    item that is still in the sequence (its delete button is not rendered),
    and the edit text is empty whenever no edit box is open. *)
Theorem session_keeps_edit_box (defaultItems : list string)
    (events : list event) (st st' : TrackerPage) :
  edit_box_consistent st →
  run defaultItems events st = Some st' →
  edit_box_consistent st'.
Proof.
  revert st. induction events as [|e events IH]; intros st Hst; simpl.
  - by intros [= <-].
  - destruct (dispatch defaultItems e st) as [st1|] eqn:Hstep; [|done].
    apply IH. by eapply dispatch_consistent.
Qed.

Lemma session_keeps_edit_box_witness :
  edit_box_consistent
    (mkTrackerPage [Examples.yoga] EmptyString (Some Examples.now0) "Yoga").
Proof.
  apply (session_keeps_edit_box Examples.study_names
           [ClickDelete 0; ClickEdit 0] Examples.two_page).
  - unfold edit_box_consistent. reflexivity.
  - by vm_compute.
Defined.

(** The save button of a row: it is rendered only in the row being edited,
    it always closes the edit box, and when the edit text is not empty after
    trimming it gives the trimmed text as name to that row; with an empty
    text the sequence stays as it is. *)
Theorem save_renames_edited_row (defaultItems : list string) (row : nat)
    (st st' : TrackerPage) :
  dispatch defaultItems (ClickSave row) st = Some st' →
  editingItem st' = None ∧ editValue st' = EmptyString
  ∧ (∃ item, items st !! row = Some item
             ∧ editingItem st = Some (id item)
             ∧ (trim (editValue st) ≠ EmptyString →
                items st' !! row
                = Some (mkItem (id item) (trim (editValue st))
                          (completed item) (createdAt item)))
             ∧ (trim (editValue st) = EmptyString → items st' = items st)).
Proof.
  simpl. destruct (items st !! row) as [item|] eqn:Hrow; [|done].
  destruct (rowEditing st item) eqn:Hediting; [|done].
  apply rowEditing_true in Hediting. intros [= <-].
  split; [done|]. split; [done|]. exists item.
  split; [done|]. split; [done|]. unfold saveEdit. split.
  - intros Hname%truthy_string_true. rewrite Hname. simpl.
    rewrite list_lookup_fmap, Hrow. simpl. unfold rename_callback.
    by rewrite decide_True.
  - intros Hname%truthy_string_false. by rewrite Hname.
Qed.

Lemma save_renames_edited_row_witness :
  editingItem (saveEdit Samples.editing_page) = None
  ∧ editValue (saveEdit Samples.editing_page) = EmptyString.
Proof.
  destruct (save_renames_edited_row Examples.study_names 1
              Samples.editing_page (saveEdit Samples.editing_page))
    as (Hbox & Htext & _); [by vm_compute|done].
Defined.

(** Opening the edit box of a row, typing, and cancelling gives back the
    page as it was, when no edit box was open before. *)
Theorem edit_then_cancel (defaultItems : list string) (row : nat)
    (text : string) (item : Item) (st : TrackerPage) :
  items st !! row = Some item →
  editingItem st = None →
  editValue st = EmptyString →
  run defaultItems [ClickEdit row; ChangeEditValue row text; ClickCancel row]
    st = Some st.
Proof.
  intros Hrow Hnone Hempty. simpl. rewrite Hrow.
  assert (rowEditing st item = false) as ->.
  { apply rowEditing_false. by rewrite Hnone. }
  simpl. rewrite Hrow.
  assert (Hon : ∀ v, rowEditing (mkTrackerPage (items st) (newItem st)
                                   (Some (id item)) v) item = true)
    by (intros v; by apply rowEditing_true).
  unfold startEditing, setEditValue, setEditingItem. simpl.
  rewrite Hon. simpl. rewrite Hrow, Hon.
  f_equal. apply TrackerPage_eq; simpl; congruence.
Qed.

Lemma edit_then_cancel_witness :
  run Examples.study_names
    [ClickEdit 1; ChangeEditValue 1 "Evening yoga"; ClickCancel 1]
    Examples.two_page
  = Some Examples.two_page.
Proof.
  by apply (edit_then_cancel Examples.study_names 1 "Evening yoga"
              Examples.yoga Examples.two_page).
Defined.

(** Typing in the two inputs, opening an edit box and cancelling it never
    change the sequence of items: through any session made of these events
    alone the items stay as they were. *)
Theorem typing_keeps_items (defaultItems : list string)
    (events : list event) (st st' : TrackerPage) :
  Forall (λ e, callsSetItems e = false) events →
  run defaultItems events st = Some st' →
  items st' = items st.
Proof.
  revert st. induction events as [|e events IH]; intros st Hevents; simpl.
  - by intros [= <-].
  - apply Forall_cons in Hevents as [He Hevents].
    destruct (dispatch defaultItems e st) as [st1|] eqn:Hstep; [|done].
    intros Hrun. rewrite (IH st1 Hevents Hrun).
    destruct e; try discriminate He; simpl in Hstep.
    + by injection Hstep as <-.
    + destruct (items st !! row); [|done].
      destruct (rowEditing st _); [done|]. by injection Hstep as <-.
    + destruct (items st !! row); [|done].
      destruct (rowEditing st _); [|done]. by injection Hstep as <-.
    + destruct (items st !! row); [|done].
      destruct (rowEditing st _); [|done]. by injection Hstep as <-.
Qed.

Lemma typing_keeps_items_witness :
  items (mkTrackerPage [Examples.walk; Examples.yoga] "Run" None EmptyString)
  = items Examples.two_page.
Proof.
  apply (typing_keeps_items Examples.study_names
           [ChangeNewItem "Run"; ClickEdit 0; ChangeEditValue 0 "Walk more";
            ClickCancel 0]
           Examples.two_page).
  - by repeat constructor.
  - by vm_compute.
Defined.

(** The button "Add Default Items" is not rendered on the page its handler
    leaves, nor on the page a successful [Add] leaves: the defaults cannot be
    seeded twice in a row, nor into a category that has an item. *)
Theorem defaults_seeded_once (defaultItems : list string)
    (host host' : nat → Host) (h : Host) (st : TrackerPage) :
  run defaultItems [ClickAddDefaults host; ClickAddDefaults host'] st = None
  ∧ (items st ≠ [] →
     dispatch defaultItems (ClickAddDefaults host) st = None)
  ∧ (trim (newItem st) ≠ EmptyString →
     run defaultItems [ClickAdd h; ClickAddDefaults host] st = None).
Proof.
  assert (Hhidden : ∀ l : list Item, l ≠ [] →
                    showAddDefaults defaultItems l = false).
  { intros [|item l] Hl; [done|]. unfold showAddDefaults. simpl.
    apply andb_false_r. }
  split; [|split].
  - simpl. unfold showAddDefaults at 1.
    destruct defaultItems as [|name0 names]; [done|].
    destruct (items st) as [|item l] eqn:Hitems; simpl; [|done].
    rewrite Hitems. simpl. done.
  - intros Hne. simpl. by rewrite Hhidden.
  - intros Hname%truthy_string_true. simpl. unfold addItem. rewrite Hname.
    simpl. rewrite Hhidden; [done|]. by destruct (items st).
Qed.

Lemma defaults_seeded_once_witness :
  dispatch Examples.study_names (ClickAddDefaults Examples.spread_draws)
    Examples.two_page = None.
Proof.
  destruct (defaults_seeded_once Examples.study_names Examples.spread_draws
              Examples.spread_draws Examples.host0 Examples.two_page)
    as (_ & Hhidden & _).
  by apply Hhidden.
Defined.

End PageFacts.

(** * Properties of the storage behind the stores *)

Module StorageFacts.
Import Snapshot Storage SnapshotFacts.

Lemma storage_key_inj (c c' : category) :
  storage_key c = storage_key c' → c = c'.
Proof. by destruct c, c'. Qed.

Lemma storage_key_not_darkMode (c : category) : storage_key c ≠ "darkMode".
Proof. by destruct c. Qed.

Lemma localStorage_setStoredValue (c : category) (v : value) (st : App) :
  localStorage (setStoredValue c v st) = localStorage st.
Proof. by destruct c. Qed.

Section WithPlatform.

Variable P : Platform.

(** The state [setValue] leaves. *)
Lemma setValue_state (c : category) (v : value) (st : App) :
  setValue P c v st
  = (if setItem_accepted P (localStorage st) (storage_key c)
          (JSON_stringify P v 0)
     then setLocalStorage
            (<[storage_key c := JSON_stringify P v 0]> (localStorage st))
            (setStoredValue c v st)
     else setStoredValue c v st,
     Normal tt).
Proof.
  run_js. simpl. rewrite localStorage_setStoredValue.
  by destruct (setItem_accepted P _ _ _).
Qed.

(** The state one [if (data.key) setter (data.key);] leaves. *)
Lemma import_category_state (data : value) (c : category) (st : App) :
  data ≠ VNull →
  import_category P data c st
  = (match imported data c with
     | Some v => fst (setValue P c v st)
     | None => st
     end, Normal tt).
Proof.
  intros Hnull.
  assert (Hget : get data (category_key c)
                 = ret (property data (category_key c))).
  { by destruct data. }
  unfold import_category, imported. rewrite Hget.
  unfold mbind, JS_bind, bind, ret.
  destruct (property data (category_key c)) as [v|]; [|done].
  destruct (truthy v); [|done]. by rewrite setValue_state.
Qed.

(** What one category of the import does to the storage. *)
Lemma import_category_storage (data : value) (c : category) (st : App)
    (key : string) :
  (imported data c = None ∨ key ≠ storage_key c) →
  localStorage (match imported data c with
                | Some v => fst (setValue P c v st)
                | None => st
                end) !! key
  = localStorage st !! key.
Proof.
  intros Hkey. destruct (imported data c) as [v|]; [|done].
  destruct Hkey as [|Hkey]; [done|].
  rewrite setValue_state. simpl.
  destruct (setItem_accepted P _ _ _); simpl.
  - by rewrite lookup_insert_ne.
  - by rewrite localStorage_setStoredValue.
Qed.

(** The state an import leaves when the text does not parse. *)
Lemma import_parse_failure_state (text : string) (st : App) :
  JSON_parse P text = None → Import P text st = (st, Some import_error).
Proof. intros Hparse. run_js. by rewrite Hparse. Qed.

(** The stores an import leaves, for every document. *)
Lemma Import_stores (text : string) (data : value) (st : App)
    (c : category) :
  JSON_parse P text = Some data →
  store c (fst (Import P text st)) = default (store c st) (imported data c).
Proof.
  intros Hparse.
  assert (data = VNull ∨ data ≠ VNull) as [->|Hnull]
    by (destruct data; (by left) || (by right)).
  - by rewrite (import_null_document P text st Hparse).
  - destruct (onload_run P text data st Hparse Hnull)
      as (st' & Hrun & Hstore).
    unfold Import, handleImport. rewrite Hrun. simpl. rewrite Hstore.
    unfold imported. destruct (property data (category_key c)) as [v|];
      [|done].
    by destruct (truthy v).
Qed.

(** The state an import leaves, as six [setValue] in sequence. *)
Lemma Import_state (text : string) (data : value) (st : App) :
  JSON_parse P text = Some data →
  data ≠ VNull →
  let step c st :=
    match imported data c with
    | Some v => fst (setValue P c v st)
    | None => st
    end in
  fst (Import P text st)
  = step exercise (step bodycare (step study (step supplements
      (step haircare (step skincare st))))).
Proof.
  intros Hparse Hnull step.
  unfold Import, handleImport, onload, try_catch, parse, mbind, JS_bind, bind.
  rewrite Hparse. unfold ret at 1.
  rewrite !import_category_state by done. done.
Qed.

(** ** Loading *)

(** [useLocalStorage] starts from [initialValue] when the key is missing,
    when its text is empty and when the text does not parse; otherwise from
    the parsed text, of whatever shape.  On an empty storage the six stores
    of [App] start as empty sequences. *)
Theorem load_falls_back (key : string) (initialValue : value)
    (ls : gmap string string) :
  (ls !! key = None → useLocalStorage_init P key initialValue ls = initialValue)
  ∧ (ls !! key = Some EmptyString →
     useLocalStorage_init P key initialValue ls = initialValue)
  ∧ (∀ item, ls !! key = Some item → JSON_parse P item = None →
       useLocalStorage_init P key initialValue ls = initialValue)
  ∧ (∀ item v, ls !! key = Some item → item ≠ EmptyString →
       JSON_parse P item = Some v →
       useLocalStorage_init P key initialValue ls = v)
  ∧ (∀ c, store c (App_init P ∅) = VArr []).
Proof.
  unfold useLocalStorage_init. split; [|split; [|split; [|split]]].
  - by intros ->.
  - by intros ->.
  - intros item -> ->. by destruct (truthy_string item).
  - intros item v -> Hitem%TrackerFacts.truthy_string_true ->. by rewrite Hitem.
  - intros c. by destruct c.
Qed.

(** ** Writing *)

(** A store written by [setValue] comes back on the next load: when the
    storage accepts the write and the text written reads back as the value,
    loading the category from the storage gives the value, and the load of
    every other category is as before. *)
Theorem setValue_then_load (c : category) (v : value) (st : App) :
  setItem_accepted P (localStorage st) (storage_key c) (JSON_stringify P v 0)
  = true →
  JSON_parse P (JSON_stringify P v 0) = Some v →
  JSON_stringify P v 0 ≠ EmptyString →
  store c (fst (setValue P c v st)) = v
  ∧ load P (localStorage (fst (setValue P c v st))) c = v
  ∧ (∀ c', c' ≠ c →
       load P (localStorage (fst (setValue P c v st))) c'
       = load P (localStorage st) c'
       ∧ store c' (fst (setValue P c v st)) = store c' st).
Proof.
  intros Haccepted Hcodec Hnonempty%TrackerFacts.truthy_string_true.
  rewrite setValue_state, Haccepted. simpl.
  unfold load, useLocalStorage_init. split; [|split].
  - by rewrite store_setLocalStorage, store_setStoredValue, decide_True.
  - by rewrite lookup_insert_eq, Hnonempty, Hcodec.
  - intros c' Hc'. split.
    + rewrite lookup_insert_ne; [done|].
      intros Heq. by apply storage_key_inj in Heq.
    + by rewrite store_setLocalStorage, store_setStoredValue, decide_False.
Qed.

(** A write the storage rejects is not an error of [setValue]: the store
    holds the new value, the storage is left as it was, and the next load
    of the category still gives what the storage held. *)
Theorem rejected_write_keeps_memory (c : category) (v : value) (st : App) :
  setItem_accepted P (localStorage st) (storage_key c) (JSON_stringify P v 0)
  = false →
  setValue P c v st = (setStoredValue c v st, Normal tt)
  ∧ store c (fst (setValue P c v st)) = v
  ∧ localStorage (fst (setValue P c v st)) = localStorage st.
Proof.
  intros Hrejected. rewrite setValue_state, Hrejected. simpl.
  split; [done|]. split.
  - by rewrite store_setStoredValue, decide_True.
  - apply localStorage_setStoredValue.
Qed.

(** ** Import and the storage *)

(** An import writes no key of the storage but the keys of the categories
    it overwrites: every other entry, the theme's among them, is left as it
    was. *)
Theorem import_storage_footprint (text : string) (data : value) (st : App) :
  JSON_parse P text = Some data →
  (∀ key, (∀ c, imported data c ≠ None → key ≠ storage_key c) →
     localStorage (fst (Import P text st)) !! key = localStorage st !! key)
  ∧ localStorage (fst (Import P text st)) !! "darkMode"
    = localStorage st !! "darkMode".
Proof.
  intros Hparse.
  assert (Hkeys : ∀ key, (∀ c, imported data c ≠ None → key ≠ storage_key c) →
    localStorage (fst (Import P text st)) !! key = localStorage st !! key).
  { intros key Hkey.
    assert (Hstep : ∀ c, imported data c = None ∨ key ≠ storage_key c).
    { intros c. destruct (imported data c) eqn:Himp; [right|by left].
      apply Hkey. by rewrite Himp. }
    assert (data = VNull ∨ data ≠ VNull) as [->|Hnull]
      by (destruct data; (by left) || (by right)).
    - by rewrite (import_null_document P text st Hparse).
    - rewrite (Import_state text data st Hparse Hnull).
      by rewrite !import_category_storage. }
  split; [done|]. apply Hkeys. intros c _ Heq.
  by apply (storage_key_not_darkMode c).
Qed.

(** Importing the same file a second time changes no store. *)
Theorem import_idempotent (text : string) (st : App) (c : category) :
  store c (fst (Import P text (fst (Import P text st))))
  = store c (fst (Import P text st)).
Proof.
  destruct (JSON_parse P text) as [data|] eqn:Hparse.
  - rewrite !(Import_stores text data) by done.
    by destruct (imported data c).
  - by rewrite !(import_parse_failure_state text _ Hparse).
Qed.

Lemma store_App_init (ls : gmap string string) (c : category) :
  store c (App_init P ls) = load P ls c.
Proof. by destruct c. Qed.

(** One category of an import keeps the stores equal to what the storage
    would load. *)
Lemma import_category_in_sync (data : value) (c : category) (st : App) :
  (∀ ls key s, setItem_accepted P ls key s = true) →
  (∀ c v, imported data c = Some v →
     JSON_parse P (JSON_stringify P v 0) = Some v
     ∧ JSON_stringify P v 0 ≠ EmptyString) →
  (∀ c', load P (localStorage st) c' = store c' st) →
  ∀ c', load P (localStorage (match imported data c with
                             | Some v => fst (setValue P c v st)
                             | None => st
                             end)) c'
        = store c' (match imported data c with
                    | Some v => fst (setValue P c v st)
                    | None => st
                    end).
Proof.
  intros Haccepted Hcodec Hsync c'.
  destruct (imported data c) as [v|] eqn:Himp; [|done].
  destruct (Hcodec c v Himp) as [Hparse Hnonempty].
  apply TrackerFacts.truthy_string_true in Hnonempty.
  rewrite setValue_state, Haccepted. simpl.
  rewrite store_setLocalStorage, store_setStoredValue.
  unfold load, useLocalStorage_init.
  destruct (decide (c' = c)) as [->|Hne].
  - by rewrite lookup_insert_eq, Hnonempty, Hparse.
  - rewrite lookup_insert_ne.
    + apply Hsync.
    + intros Heq. by apply storage_key_inj in Heq.
Qed.

(** An import survives a restart: when the storage accepts the writes and
    the texts written read back as the values, and the stores agreed with
    the storage before the import, then the six stores the application loads
    from the storage after the import are the six stores the import left. *)
Theorem import_survives_restart (text : string) (data : value) (st : App) :
  JSON_parse P text = Some data →
  (∀ ls key s, setItem_accepted P ls key s = true) →
  (∀ c v, imported data c = Some v →
     JSON_parse P (JSON_stringify P v 0) = Some v
     ∧ JSON_stringify P v 0 ≠ EmptyString) →
  (∀ c, load P (localStorage st) c = store c st) →
  ∀ c, store c (App_init P (localStorage (fst (Import P text st))))
       = store c (fst (Import P text st)).
Proof.
  intros Hparse Haccepted Hcodec Hsync c. rewrite store_App_init.
  assert (data = VNull ∨ data ≠ VNull) as [->|Hnull]
    by (destruct data; (by left) || (by right)).
  - rewrite (import_null_document P text st Hparse). apply Hsync.
  - rewrite (Import_state text data st Hparse Hnull).
    cbv zeta.
    do 6 (apply import_category_in_sync; [done|done|]). done.
Qed.

End WithPlatform.

(** ** On the reference platform *)

(** The stores loaded from a storage that holds a sequence, a text that is
    not JSON and an empty text. *)
Lemma load_falls_back_witness :
  load RefJSON.platform Samples.mixed_storage skincare = VArr []
  ∧ load RefJSON.platform Samples.mixed_storage study = VArr []
  ∧ load RefJSON.platform Samples.mixed_storage exercise = VArr []
  ∧ load RefJSON.platform Samples.mixed_storage haircare = VArr [].
Proof.
  destruct (load_falls_back RefJSON.platform "study-items" (VArr [])
              Samples.mixed_storage) as (_ & _ & Hcorrupt & _ & _).
  destruct (load_falls_back RefJSON.platform "exercise-items" (VArr [])
              Samples.mixed_storage) as (_ & Hempty & _ & _ & _).
  destruct (load_falls_back RefJSON.platform "haircare-items" (VArr [])
              Samples.mixed_storage) as (Hmissing & _ & _ & _ & _).
  destruct (load_falls_back RefJSON.platform "skincare-items" (VArr [])
              Samples.mixed_storage) as (_ & _ & _ & Hparsed & _).
  split; [|split; [|split]].
  - by apply (Hparsed "[]").
  - by apply (Hcorrupt "not valid json").
  - by apply Hempty.
  - by apply Hmissing.
Defined.

Lemma setValue_then_load_witness :
  load RefJSON.platform
    (localStorage
       (fst (setValue RefJSON.platform exercise
               (VArr [Examples.walk_value; Examples.read_value])
               Examples.empty_app))) exercise
  = VArr [Examples.walk_value; Examples.read_value].
Proof.
  assert (Hcodec :
    JSON_parse RefJSON.platform
      (JSON_stringify RefJSON.platform
         (VArr [Examples.walk_value; Examples.read_value]) 0)
    = Some (VArr [Examples.walk_value; Examples.read_value]))
    by (vm_compute; reflexivity).
  assert (Hnonempty :
    JSON_stringify RefJSON.platform
      (VArr [Examples.walk_value; Examples.read_value]) 0 ≠ EmptyString)
    by (vm_compute; discriminate).
  destruct (setValue_then_load RefJSON.platform exercise
              (VArr [Examples.walk_value; Examples.read_value])
              Examples.empty_app eq_refl Hcodec Hnonempty)
    as (_ & Hload & _).
  exact Hload.
Defined.

Lemma rejected_write_keeps_memory_witness :
  store exercise
    (fst (setValue RefJSON.platform_full exercise
            (VArr [Examples.walk_value]) Examples.empty_app))
  = VArr [Examples.walk_value]
  ∧ localStorage
      (fst (setValue RefJSON.platform_full exercise
              (VArr [Examples.walk_value]) Examples.empty_app))
    = ∅.
Proof.
  destruct (rejected_write_keeps_memory RefJSON.platform_full exercise
              (VArr [Examples.walk_value]) Examples.empty_app eq_refl)
    as (_ & Hstore & Hstorage).
  by split.
Defined.

Lemma import_storage_footprint_witness :
  localStorage
    (fst (Import RefJSON.platform Examples.partial_text
            (App_init RefJSON.platform Samples.mixed_storage)))
    !! "study-items"
  = Some "not valid json".
Proof.
  assert (Hparse : JSON_parse RefJSON.platform Examples.partial_text
                   = Some Examples.partial_data) by (by vm_compute).
  destruct (import_storage_footprint RefJSON.platform Examples.partial_text
              Examples.partial_data
              (App_init RefJSON.platform Samples.mixed_storage) Hparse)
    as [Hkeys _].
  rewrite Hkeys; [done|].
  intros c Himported. by destruct c.
Defined.

(** The backup of [sample_app] imported over the stores loaded from
    [mixed_storage]: the exercise store, empty before, holds the two items of
    the backup, the storage holds their text, and a restart loads them. *)
Lemma import_survives_restart_witness :
  let st := App_init RefJSON.platform Samples.mixed_storage in
  let text := Export RefJSON.platform Examples.iso0 Examples.sample_app in
  let st' := fst (Import RefJSON.platform text st) in
  store exercise st = VArr []
  ∧ localStorage st !! "exercise-items" = Some EmptyString
  ∧ store exercise st' = VArr [Examples.walk_value; Examples.yoga_value]
  ∧ localStorage st' !! "exercise-items"
    = Some (JSON_stringify RefJSON.platform
              (VArr [Examples.walk_value; Examples.yoga_value]) 0)
  ∧ store exercise (App_init RefJSON.platform (localStorage st'))
    = VArr [Examples.walk_value; Examples.yoga_value]
  ∧ store study (App_init RefJSON.platform (localStorage st'))
    = VArr [Examples.read_value].
Proof.
  intros st text st'.
  assert (Hparse : JSON_parse RefJSON.platform text
                   = Some (export_data Examples.iso0 Examples.sample_app))
    by (by vm_compute).
  assert (Hcodec : ∀ c v,
    imported (export_data Examples.iso0 Examples.sample_app) c = Some v →
    JSON_parse RefJSON.platform (JSON_stringify RefJSON.platform v 0) = Some v
    ∧ JSON_stringify RefJSON.platform v 0 ≠ EmptyString).
  { intros c v Himported.
    destruct c; injection Himported as <-;
      (split; [by vm_compute|vm_compute; discriminate]). }
  assert (Hsync : ∀ c, load RefJSON.platform (localStorage st) c = store c st)
    by (intros c; subst st; by rewrite store_App_init).
  pose proof (import_survives_restart RefJSON.platform text
                (export_data Examples.iso0 Examples.sample_app) st
                Hparse (λ _ _ _, eq_refl) Hcodec Hsync) as Hrestart.
  assert (Hexercise : store exercise st'
                      = VArr [Examples.walk_value; Examples.yoga_value])
    by (by vm_compute).
  assert (Hstudy : store study st' = VArr [Examples.read_value])
    by (by vm_compute).
  split; [by vm_compute|]. split; [by vm_compute|].
  split; [done|]. split; [by vm_compute|]. split.
  - transitivity (store exercise st'); [exact (Hrestart exercise)|done].
  - transitivity (store study st'); [exact (Hrestart study)|done].
Defined.

End StorageFacts.

(** * The theme button *)

Module ThemeFacts.
Import Snapshot Storage Theme.

Section WithPlatform.

Variable P : Platform.
Variable event_json : option string.

(** The theme button only ever switches dark mode on: after one click or
    more, from any state, [isDark] is the click event, which is truthy, and
    the page carries the class [dark]; a click in dark mode does not return
    to light.  A click writes no key of the storage but [darkMode], and not
    even that one when the event cannot be written as JSON. *)
Theorem theme_button_only_darkens (n : nat) (st : DarkMode) :
  let st' := Nat.iter (S n) (click_theme_button P event_json) st in
  isDark st' = ClickEvent
  ∧ dark_class st' = true
  ∧ (∀ key, key ≠ "darkMode" →
       theme_storage (click_theme_button P event_json st) !! key
       = theme_storage st !! key)
  ∧ (event_json = None →
     theme_storage (click_theme_button P event_json st) = theme_storage st).
Proof.
  simpl. split; [done|]. split; [done|]. split.
  - intros key Hkey.
    unfold click_theme_button, toggleDarkMode, setIsDark. simpl.
    destruct event_json as [s|]; [|done].
    destruct (setItem_accepted P _ _ _); [|done].
    by rewrite lookup_insert_ne.
  - by intros ->.
Qed.

(** The theme the application starts with: light when the storage has no
    theme, an empty or an unreadable one; else dark exactly when the stored
    value is truthy. *)
Theorem theme_at_start (ls : gmap string string) :
  (ls !! "darkMode" = None →
   dark_class (useDarkMode_init P ls) = false)
  ∧ (∀ item, ls !! "darkMode" = Some item → JSON_parse P item = None →
       dark_class (useDarkMode_init P ls) = false)
  ∧ (∀ item v, ls !! "darkMode" = Some item → item ≠ EmptyString →
       JSON_parse P item = Some v →
       dark_class (useDarkMode_init P ls) = truthy v).
Proof.
  unfold useDarkMode_init, useLocalStorage_init. simpl.
  split; [|split].
  - by intros ->.
  - intros item -> ->. by destruct (truthy_string item).
  - intros item v -> Hitem%TrackerFacts.truthy_string_true ->.
    by rewrite Hitem.
Qed.

End WithPlatform.

Lemma theme_at_start_witness :
  dark_class (useDarkMode_init RefJSON.platform Samples.mixed_storage) = true.
Proof.
  destruct (theme_at_start RefJSON.platform Samples.mixed_storage)
    as (_ & _ & Hparsed).
  by rewrite (Hparsed "true" (VBool true)).
Defined.

End ThemeFacts.
